(** * Funkin-AI: hit-window evaluator, hold tracker, deferred dispatcher
      and line framing

    Shallow embedding of [src/AI/test_socket_server.py] (module [Server])
    and [src/ai_client.py] (module [Client]).

    Modelling conventions.
    - JSON numbers are integers ([Z], milliseconds); Python's [int]
      arithmetic is exact, so no wrap-around is written out.
    - A JSON object is a record whose fields are [option]s: [None] is an
      absent key, and every [dict.get(key, default)] of the source is a
      [default] at the place where the source has it.
    - The module-level dictionaries [active_holds] and [scheduled_notes]
      are finite maps threaded explicitly through the functions that
      mutate them.
    - Text is [string]; a character is one code point below 256.
    - Printing and the vision display ([update_vision], which catches its
      own exceptions and touches neither [active_holds] nor the socket)
      are left out; [conn.sendall] is recorded in the list of payloads
      sent and does not fail; [json.loads], the socket reads and the wall
      clock are inputs of the model.
    - The fields of a decoded object have the types of the wire format; an
      object with a field of another type, on which [analyze_notes] raises
      half-way, is the decoder outcome [RaisedInLane]: the typed part that
      was evaluated, and the lane at which the exception came. *)

From Stdlib Require Import ZArith String Ascii List Lia Bool Sorted DecimalString.
From stdpp Require Import gmap strings list fin_maps.

Local Open Scope string_scope.
Local Open Scope list_scope.
Local Open Scope Z_scope.

(** ** Python helpers shared by both programs *)

Module Py.

(** [del d[k]] / [d.pop(k, None)] applied for every key of a list. *)
Definition remove_keys {V} (keys : list Z) (d : gmap Z V) : gmap Z V :=
  foldl (fun m k => delete k m) d keys.

(** The keys of [d] (in iteration order) that satisfy [p]: the loops that
    collect [directions_to_release] and [keys_to_remove]. *)
Definition keys_where {V} (p : Z -> V -> bool) (d : gmap Z V) : list Z :=
  (filter (fun kv => p kv.1 kv.2 = true) (map_to_list d)).*1.

(** [str.isspace] on one character (code points below 256). *)
Definition isspace (c : ascii) : bool :=
  let n := N.to_nat (N_of_ascii c) in
  ((9 <=? n) && (n <=? 13) || (28 <=? n) && (n <=? 32)
   || (n =? 133) || (n =? 160))%nat.

Fixpoint lstrip (s : string) : string :=
  match s with
  | String c s' => if isspace c then lstrip s' else s
  | EmptyString => EmptyString
  end.

(** [rstrip] by recursion from the right end: a character is dropped when
    it is white space and everything after it has been dropped. *)
Fixpoint rstrip (s : string) : string :=
  match s with
  | String c s' =>
      match rstrip s' with
      | EmptyString => if isspace c then EmptyString else String c EmptyString
      | r => String c r
      end
  | EmptyString => EmptyString
  end.

(** [s.strip()] *)
Definition strip (s : string) : string := rstrip (lstrip s).

(** Truth value of a string: [if s:] *)
Definition truthy (s : string) : bool :=
  match s with EmptyString => false | _ => true end.

Definition newline : ascii := "010"%char.

(** The text ["\n"]. *)
Definition nl : string := String newline EmptyString.

(** ['\n' in s] *)
Fixpoint has_newline (s : string) : bool :=
  match s with
  | String c s' => if Ascii.eqb c newline then true else has_newline s'
  | EmptyString => false
  end.

(** [s.split('\n', 1)] when ['\n' in s]: the text before the first
    newline and the text after it; [None] when there is no newline. *)
Fixpoint split_once (s : string) : option (string * string) :=
  match s with
  | String c s' =>
      if Ascii.eqb c newline then Some (EmptyString, s')
      else match split_once s' with
           | Some (line, rest) => Some (String c line, rest)
           | None => None
           end
  | EmptyString => None
  end.

(** [s.split('\n')]: never the empty list. *)
Fixpoint split (s : string) : list string :=
  match s with
  | String c s' =>
      if Ascii.eqb c newline then EmptyString :: split s'
      else match split s' with
           | piece :: pieces => String c piece :: pieces
           | [] => [String c EmptyString]
           end
  | EmptyString => [EmptyString]
  end.

(** [lines.pop()] with the list it leaves behind: (remaining, popped). *)
Fixpoint pop_last (l : list string) : list string * string :=
  match l with
  | [] => ([], EmptyString)
  | [x] => ([], x)
  | x :: l' => let '(front, last) := pop_last l' in (x :: front, last)
  end.

(** The complete lines of a text and its trailing incomplete line,
    described directly: the reference both frame readers are compared
    with below. *)
Fixpoint lines_of (s : string) : list string * string :=
  match s with
  | String c s' =>
      let '(ls, t) := lines_of s' in
      if Ascii.eqb c newline then (EmptyString :: ls, t)
      else match ls with
           | [] => ([], String c t)
           | l :: ls' => (String c l :: ls', t)
           end
  | EmptyString => ([], EmptyString)
  end.

(** The text made of the lines, each followed by a newline, and the
    trailing incomplete line. *)
Definition unlines (ls : list string) (t : string) : string :=
  foldr (fun l acc => (l ++ String newline acc)%string) t ls.

(** Empty or white space only. *)
Fixpoint blank (s : string) : bool :=
  match s with
  | String c s' => isspace c && blank s'
  | EmptyString => true
  end.

(** The test [if line.strip():] of both readers. *)
Definition kept (line : string) : Prop := truthy (strip line) = true.

(** [sep.join(l)] *)
Definition join (sep : string) (l : list string) : string :=
  String.concat sep l.

End Py.

(** ** test_socket_server.py *)

Module Server.

Definition HIT_WINDOW_MS : Z := 160.

(** One element of the snapshot's ["notes"] array. *)
Record Note := {
  direction : option Z;
  strumTime : option Z;
  conductorTime : option Z;
  isHoldNote : option bool;
  note_length : option Z;          (* key "length" *)
  mayHit : option bool;
  hasMissed : option bool;
  hasBeenHit : option bool }.

(** A value of the [active_holds] dictionary. *)
Record hold_data := {
  start_time : Z;
  end_time : Z;
  note : Note }.

Definition get_key_for_direction (direction : Z) : string :=
  match direction with
  | 0 => "left"
  | 1 => "down"
  | 2 => "up"
  | 3 => "right"
  | _ => "none"
  end.

(** The conjunction of lines 92-95. *)
Definition selectable (d : Z) (n : Note) : bool :=
  bool_decide (direction n = Some d)
  && negb (default false (hasBeenHit n))
  && negb (default false (hasMissed n))
  && default false (mayHit n).

(** Lines 97-99: [strum_time - conductor_time]. *)
Definition time_difference (current_conductor_time : Z) (n : Note) : Z :=
  default 0 (strumTime n) - default current_conductor_time (conductorTime n).

(** Line 107. *)
Definition in_hit_window (td : Z) : bool :=
  (- HIT_WINDOW_MS <=? td) && (td <=? HIT_WINDOW_MS).

(** Lines 90-109: the list [hitable_notes] built for one direction. *)
Fixpoint hitable_notes (d : Z) (current_conductor_time : Z)
    (notes_data : list Note) : list (Note * Z) :=
  match notes_data with
  | [] => []
  | n :: rest =>
      let tail := hitable_notes d current_conductor_time rest in
      if selectable d n then
        let td := time_difference current_conductor_time n in
        if in_hit_window td then (n, Z.abs td) :: tail else tail
      else tail
  end.

(** [list.sort(key=lambda x: x[1])] is a stable sort; a stable insertion
    sort computes the same list. *)
Fixpoint insert_by_diff (x : Note * Z) (l : list (Note * Z)) : list (Note * Z) :=
  match l with
  | [] => [x]
  | y :: l' => if x.2 <=? y.2 then x :: l else y :: insert_by_diff x l'
  end.

Definition sort_by_diff (l : list (Note * Z)) : list (Note * Z) :=
  foldr insert_by_diff [] l.

(** Lines 72-75. *)
Definition directions_to_release (current_conductor_time : Z)
    (active_holds : gmap Z hold_data) : list Z :=
  Py.keys_where (fun _ h => end_time h <=? current_conductor_time) active_holds.

(** Lines 72-80. *)
Definition release_expired (current_conductor_time : Z)
    (active_holds : gmap Z hold_data) : gmap Z hold_data :=
  Py.remove_keys (directions_to_release current_conductor_time active_holds)
    active_holds.

(** Lines 84-135: the body of [for direction in [0, 1, 2, 3]], on the
    pair (active_holds, actions). *)
Definition lane_step (current_conductor_time : Z) (notes_data : list Note)
    (st : gmap Z hold_data * list string) (d : Z)
    : gmap Z hold_data * list string :=
  let '(active_holds, actions) := st in
  if bool_decide (is_Some (active_holds !! d)) then
    (active_holds, actions ++ [get_key_for_direction d])
  else
    match sort_by_diff (hitable_notes d current_conductor_time notes_data) with
    | [] => st
    | (best_note, best_timing_diff) :: _ =>
        if best_timing_diff <=? 80 then
          let key_name := get_key_for_direction d in
          if bool_decide (key_name <> "none") then
            let actions' := actions ++ [key_name] in
            if default false (isHoldNote best_note) then
              let hold_duration_ms :=
                Z.max (default 0 (note_length best_note)) 200 in
              (<[d := {| start_time := current_conductor_time;
                         end_time := current_conductor_time + hold_duration_ms;
                         note := best_note |}]> active_holds,
               actions')
            else (active_holds, actions')
          else st
        else st
    end.

(** [analyze_notes(notes_data, game_timestamp)]; [now] is the reading
    [time.time() * 1000] used when [game_timestamp] is [None].  Returns
    the updated [active_holds] and the list [actions]. *)
Definition analyze_notes (now : Z) (active_holds : gmap Z hold_data)
    (notes_data : list Note) (game_timestamp : option Z)
    : gmap Z hold_data * list string :=
  match notes_data with
  | [] => (active_holds, [])
  | _ =>
      let current_conductor_time := default now game_timestamp in
      foldl (lane_step current_conductor_time notes_data)
        (release_expired current_conductor_time active_holds, [])
        [0; 1; 2; 3]
  end.

(** Lines 169-173. *)
Definition unique_actions (actions : list string) : list string :=
  foldl (fun u a => if bool_decide (a ∈ u) then u else u ++ [a]) [] actions.

Definition format_actions (actions : list string) : string :=
  match actions with
  | [] => "none"
  | _ => Py.join "," (unique_actions actions)
  end.

(** *** The selection rule in the words of the specification

    These definitions follow the specification (section 4.3, steps 2-6),
    not the code; the theorems below compare them with [analyze_notes]. *)

(** Step 3: the note's own [conductorTime] if present, else the snapshot's
    [timestamp]. *)
Definition referenceTime (snapshot_timestamp : Z) (n : Note) : Z :=
  match conductorTime n with
  | Some t => t
  | None => snapshot_timestamp
  end.

Definition timeDifference (snapshot_timestamp : Z) (n : Note) : Z :=
  default 0 (strumTime n) - referenceTime snapshot_timestamp n.

(** Steps 2 and 4: an eligible note of lane [L] inside the window. *)
Definition is_candidate (L : Z) (snapshot_timestamp : Z) (n : Note) : Prop :=
  direction n = Some L
  /\ default false (hasBeenHit n) = false
  /\ default false (hasMissed n) = false
  /\ default false (mayHit n) = true
  /\ -160 <= timeDifference snapshot_timestamp n <= 160.

Global Instance is_candidate_dec L ts n : Decision (is_candidate L ts n).
Proof. unfold is_candidate. apply _. Defined.

(** The kept candidates, in the order of [notes]. *)
Definition candidates (L : Z) (snapshot_timestamp : Z) (notes : list Note)
    : list Note :=
  filter (is_candidate L snapshot_timestamp) notes.

(** Step 5: [b] is the kept candidate with minimum [|timeDifference|], the
    first one in the order of [notes] among those with that minimum. *)
Definition chosen (L : Z) (snapshot_timestamp : Z) (notes : list Note)
    (b : Note) : Prop :=
  let cs := candidates L snapshot_timestamp notes in
  let ad n := Z.abs (timeDifference snapshot_timestamp n) in
  exists i : nat,
    cs !! i = Some b
    /\ (forall j n, cs !! j = Some n -> ad b <= ad n)
    /\ (forall j n, (j < i)%nat -> cs !! j = Some n -> ad b < ad n).

(** The order of the keys of line 114, and the first entry of a list with
    the least key. *)
Definition diff_le (x y : Note * Z) : Prop := x.2 <= y.2.

Definition first_min (l : list (Note * Z)) (i : nat) (x : Note * Z) : Prop :=
  l !! i = Some x
  /\ (forall j y, l !! j = Some y -> x.2 <= y.2)
  /\ (forall j y, (j < i)%nat -> l !! j = Some y -> x.2 < y.2).

(** Lines 113-118 for one direction: the head of the sorted list when its
    key is at most 80. *)
Definition accepted (d : Z) (current_conductor_time : Z)
    (notes_data : list Note) : option Note :=
  match sort_by_diff (hitable_notes d current_conductor_time notes_data) with
  | (best_note, best_timing_diff) :: _ =>
      if best_timing_diff <=? 80 then Some best_note else None
  | [] => None
  end.

(** The entry written at lines 130-134. *)
Definition new_hold (current_conductor_time : Z) (best_note : Note) : hold_data :=
  {| start_time := current_conductor_time;
     end_time := current_conductor_time
                 + Z.max (default 0 (note_length best_note)) 200;
     note := best_note |}.

(** Whether the loop body appends the key of [d], and the entry of [d] it
    leaves in [active_holds], as functions of the dictionary before it. *)
Definition lane_fires (current_conductor_time : Z) (notes_data : list Note)
    (holds : gmap Z hold_data) (d : Z) : bool :=
  bool_decide (is_Some (holds !! d))
  || (bool_decide (is_Some (accepted d current_conductor_time notes_data))
      && bool_decide (get_key_for_direction d <> "none")).

Definition lane_hold (current_conductor_time : Z) (notes_data : list Note)
    (holds : gmap Z hold_data) (d : Z) : option hold_data :=
  match holds !! d with
  | Some h => Some h
  | None =>
      match accepted d current_conductor_time notes_data with
      | Some b =>
          if bool_decide (get_key_for_direction d <> "none")
             && default false (isHoldNote b)
          then Some (new_hold current_conductor_time b)
          else None
      | None => None
      end
  end.

(** The keys of [active_holds] stay among the four lanes. *)
Definition lanes_only (holds : gmap Z hold_data) : Prop :=
  forall d, is_Some (holds !! d) -> d ∈ [0; 1; 2; 3].

(** The lane's name is in the action list. *)
Definition emits (L : Z) (actions : list string) : Prop :=
  get_key_for_direction L ∈ actions.

(** A hold of lane [L] that is still alive at [t]. *)
Definition alive (t : Z) (active_holds : gmap Z hold_data) (L : Z) : Prop :=
  exists h, active_holds !! L = Some h /\ t < end_time h.

(** *** The receive loop (lines 195-252) *)

(** A decoded snapshot object. *)
Record game_state := {
  mainState : option string;
  isPlaying : option bool;
  timestamp : option Z;
  notes : option (list Note) }.

(** The outcome of [json.loads(line.strip())] as the handlers of lines
    237-243 see it: the parser raises [JSONDecodeError]; or another
    exception is raised and caught by [except Exception] before anything
    is sent or changed (the parser returned a value that is not an object,
    on which the first [game_state.get] raises; or the timestamp cannot be
    compared at line 74); or the parser returns a snapshot object; or it
    returns an object [gs] on which [analyze_notes] raises while the lane
    at position [k] of [[0, 1, 2, 3]] is evaluated, because a field read
    there has a type that the arithmetic of lines 99, 128 or 132 refuses. *)
Inductive loaded :=
  | JSONDecodeError
  | OtherException
  | Snapshot (gs : game_state)
  | RaisedInLane (gs : game_state) (k : nat).

(** One result of [conn.recv(1024).decode('utf-8', errors='ignore')]:
    text (with the reading of [time.time() * 1000] while it is processed),
    or one of the exceptions handled at lines 245-252. *)
Inductive recv_result :=
  | Received (now : Z) (data : string)
  | Timeout
  | ConnectionReset
  | ConnectionError.

(** [buffer], [active_holds] and the payloads given to [conn.sendall]. *)
Record state := {
  buffer : string;
  active_holds : gmap Z hold_data;
  sent : list string }.

(** Lines 219-235. *)
Definition process_game_state (now : Z) (holds : gmap Z hold_data)
    (gs : game_state) : gmap Z hold_data * string :=
  if bool_decide (mainState gs = Some "PLAYING") && default false (isPlaying gs)
  then
    let notes := default [] (notes gs) in
    let game_timestamp := default now (timestamp gs) in
    let '(holds', actions) := analyze_notes now holds notes (Some game_timestamp) in
    (holds', format_actions actions ++ Py.nl)%string
  else
    (∅, ("none" ++ Py.nl)%string).

(** The test of line 219 and the call of lines 220-222, named for the
    statements below. *)
Definition playing (gs : game_state) : Prop :=
  mainState gs = Some "PLAYING" /\ isPlaying gs = Some true.

Definition evaluate (now : Z) (holds : gmap Z hold_data) (gs : game_state)
    : gmap Z hold_data * list string :=
  analyze_notes now holds (default [] (notes gs))
    (Some (default now (timestamp gs))).

(** What the handler of lines 241-243 finds in [active_holds] after
    [RaisedInLane gs k]: the removals of lines 72-80 and the entries
    written for the lanes before position [k] are kept (the exception
    comes before line 130 of the lane itself).  An object that never
    reaches the lane loop leaves what lines 63-64 or 232-235 leave. *)
Definition raised_in_lane (now : Z) (holds : gmap Z hold_data)
    (gs : game_state) (k : nat) : gmap Z hold_data :=
  if bool_decide (mainState gs = Some "PLAYING") && default false (isPlaying gs)
  then
    match default [] (notes gs) with
    | [] => holds
    | notes_data =>
        let current_conductor_time := default now (timestamp gs) in
        (foldl (lane_step current_conductor_time notes_data)
           (release_expired current_conductor_time holds, [])
           (take k [0; 1; 2; 3])).1
    end
  else ∅.

Section ReceiveLoop.

Variable json_loads : string -> loaded.

(** Lines 211-243: the body of the inner [while] for one [line]; every
    branch that is taken for a non-blank line sends exactly one payload. *)
Definition process_line (now : Z) (holds : gmap Z hold_data) (line : string)
    : gmap Z hold_data * list string :=
  if Py.truthy (Py.strip line) then
    match json_loads (Py.strip line) with
    | Snapshot gs =>
        let '(holds', response) := process_game_state now holds gs in
        (holds', [response])
    | JSONDecodeError => (holds, [("none" ++ Py.nl)%string])
    | OtherException => (holds, [("none" ++ Py.nl)%string])
    | RaisedInLane gs k =>
        (raised_in_lane now holds gs k, [("none" ++ Py.nl)%string])
    end
  else (holds, []).

(** Lines 209-243: [while '\n' in buffer]; [fuel] bounds the number of
    iterations. *)
Fixpoint drain (fuel : nat) (now : Z) (st : state) : state :=
  match fuel with
  | O => st
  | S fuel' =>
      match Py.split_once (buffer st) with
      | None => st
      | Some (line, rest) =>
          let '(holds', out) := process_line now (active_holds st) line in
          drain fuel' now
            {| buffer := rest; active_holds := holds'; sent := sent st ++ out |}
      end
  end.

(** The inner loop of lines 209-243 as a fold over the lines it takes out
    of the buffer. *)
Definition handle_lines (now : Z) (acc : gmap Z hold_data * list string)
    (lines : list string) : gmap Z hold_data * list string :=
  foldl (fun acc line =>
           let '(holds', out) := process_line now acc.1 line in
           (holds', acc.2 ++ out))
        acc lines.

(** The exceptions and the end of stream that [break] the loop. *)
Definition connection_level (r : recv_result) : Prop :=
  r = ConnectionReset \/ r = ConnectionError
  \/ exists now, r = Received now EmptyString.

(** Lines 197-252: one iteration of [while True]; the boolean tells
    whether the loop goes on ([true]) or [break]s. *)
Definition on_recv (st : state) (r : recv_result) : state * bool :=
  match r with
  | Received now data =>
      if Py.truthy data then
        let buffer' := (buffer st ++ data)%string in
        (drain (String.length buffer') now
           {| buffer := buffer'; active_holds := active_holds st;
              sent := sent st |},
         true)
      else (st, false)
  | Timeout => (st, true)
  | ConnectionReset => (st, false)
  | ConnectionError => (st, false)
  end.

(** The session: [on_recv] until a [break] or the end of the events.  The
    boolean is [true] while the session is still running. *)
Fixpoint serve (st : state) (events : list recv_result) : state * bool :=
  match events with
  | [] => (st, true)
  | r :: events' =>
      let '(st', running) := on_recv st r in
      if running then serve st' events' else (st', false)
  end.

End ReceiveLoop.

(** The lines the inner loop hands to the decoder: the values of [line]
    that pass [if line.strip()], and the buffer left when the loop ends. *)
Fixpoint read_lines (fuel : nat) (buffer : string) : list string * string :=
  match fuel with
  | O => ([], buffer)
  | S fuel' =>
      match Py.split_once buffer with
      | None => ([], buffer)
      | Some (line, rest) =>
          let '(lines, buffer') := read_lines fuel' rest in
          (if Py.truthy (Py.strip line) then line :: lines else lines, buffer')
      end
  end.

(** The frame reader of the server: append [data], take the lines. *)
Definition feed (buffer data : string) : list string * string :=
  read_lines (String.length (buffer ++ data)) (buffer ++ data)%string.

End Server.

(** ** ai_client.py *)

Module Client.

(** One element of the message's ["currentNotes"] array. *)
Record Note := {
  direction : option Z;
  strumTime : option Z;
  mayHit : option bool;
  hasMissed : option bool;
  tooEarly : option bool;
  hasBeenHit : option bool }.

Record Message := {
  type : option string;
  currentTime : option Z;
  currentNotes : option (list Note) }.

(** Lines 77 and 91: [strum_time * 10 + direction]. *)
Definition note_id (n : Note) : Z :=
  default 0 (strumTime n) * 10 + default 0 (direction n).

(** Lines 107-114 as one event: the key stored in [scheduled_notes] and the
    arguments [(direction, hit_delay)] of the thread started for it. *)
Record Task := {
  task_id : Z;
  task_direction : Z;
  task_delay : Z }.

(** Lines 78-84. *)
Definition cleanup (current_note_ids : list Z) (scheduled_notes : gmap Z bool)
    : gmap Z bool :=
  Py.remove_keys
    (Py.keys_where (fun id _ => negb (bool_decide (id ∈ current_note_ids)))
       scheduled_notes)
    scheduled_notes.

(** Line 88. *)
Definition wanted (n : Note) : bool :=
  default false (mayHit n)
  && negb (default false (hasMissed n))
  && negb (default true (tooEarly n)).

(** Lines 88-114: the body of [for note in current_notes]. *)
Definition schedule_step (current_time : Z)
    (st : gmap Z bool * list Task) (n : Note) : gmap Z bool * list Task :=
  let '(scheduled_notes, tasks) := st in
  if wanted n then
    let direction := default 0 (direction n) in
    let strum_time := default 0 (strumTime n) in
    let note_id := strum_time * 10 + direction in
    if bool_decide (is_Some (scheduled_notes !! note_id)) then st
    else
      let time_until_hit := strum_time - current_time in
      if (0 <=? time_until_hit) && (time_until_hit <=? 150) then
        let hit_delay := Z.max 0 (time_until_hit - 30) in
        (<[note_id := true]> scheduled_notes,
         tasks ++ [{| task_id := note_id; task_direction := direction;
                      task_delay := hit_delay |}])
      else st
  else st.

(** [process_message(message, sock)]: the new [scheduled_notes] and the
    threads started, in order. *)
Definition process_message (scheduled_notes : gmap Z bool) (message : Message)
    : gmap Z bool * list Task :=
  if bool_decide (type message = Some "noteData") then
    let current_time := default 0 (currentTime message) in
    let current_notes := default [] (currentNotes message) in
    let current_note_ids := map note_id current_notes in
    foldl (schedule_step current_time)
      (cleanup current_note_ids scheduled_notes, []) current_notes
  else (scheduled_notes, []).

(** The command objects of lines 127-141. *)
Record Command := {
  keyCode : Z;
  pressed : bool }.

(** What a thread running [hit_note] does, in order; sleeps in
    milliseconds ([time.sleep(delay_ms / 1000.0)], [time.sleep(0.06)]). *)
Inductive effect :=
  | Sleep (ms : Z)
  | Send (c : Command).

Definition hit_note (direction delay_ms : Z) : list effect :=
  [ Sleep delay_ms;
    Send {| keyCode := direction; pressed := true |};
    Sleep 60;
    Send {| keyCode := direction; pressed := false |} ].

(** *** Names for the statements below *)

(** The identity of a note in the words of the specification. *)
Definition identity (n : Note) : Z * Z :=
  (default 0 (strumTime n), default 0 (direction n)).

(** A lane that fits the last decimal digit of the id: 0..9, which
    includes the lanes 0..3 of the data model. *)
Definition decimal_lane (n : Note) : Prop :=
  0 <= default 0 (direction n) <= 9.

(** Line 96 and the test of line 100. *)
Definition time_until_hit (current_time : Z) (n : Note) : Z :=
  default 0 (strumTime n) - current_time.

Definition in_horizon (current_time : Z) (n : Note) : bool :=
  (0 <=? time_until_hit current_time n)
  && (time_until_hit current_time n <=? 150).

(** The task started for [n] at lines 102-114. *)
Definition task_of (current_time : Z) (n : Note) : Task :=
  {| task_id := note_id n;
     task_direction := default 0 (direction n);
     task_delay := Z.max 0 (time_until_hit current_time n - 30) |}.

(** The three tests of the loop body together. *)
Definition schedulable (current_time : Z) (scheduled_notes : gmap Z bool)
    (n : Note) : bool :=
  wanted n
  && negb (bool_decide (is_Some (scheduled_notes !! note_id n)))
  && in_horizon current_time n.

(** The note without its [hasBeenHit] key. *)
Definition without_hasBeenHit (n : Note) : Note :=
  {| direction := direction n; strumTime := strumTime n; mayHit := mayHit n;
     hasMissed := hasMissed n; tooEarly := tooEarly n; hasBeenHit := None |}.

Definition message_without_hasBeenHit (m : Message) : Message :=
  {| type := type m; currentTime := currentTime m;
     currentNotes := map without_hasBeenHit <$> currentNotes m |}.

(** Lines 37-42: the frame reader of the client; the lines handed to
    [json.loads] and the new [buffer]. *)
Definition feed (buffer text : string) : list string * string :=
  let '(lines, buffer') := Py.pop_last (Py.split (buffer ++ text)) in
  (filter Py.kept lines, buffer').

End Client.

(** ** test_socket_server.py: names for the statements about the tracker
       and the payloads *)

Module Tracker.
Import Server.

(** What lines 125-134 store under the key [d]: a hold note of lane [d]
    and an end time [max(length, 200)] after the start. *)
Definition hold_ok (d : Z) (h : hold_data) : Prop :=
  d ∈ [0; 1; 2; 3]
  /\ direction (note h) = Some d
  /\ isHoldNote (note h) = Some true
  /\ end_time h = start_time h + Z.max (default 0 (note_length (note h))) 200.

Definition holds_ok (holds : gmap Z hold_data) : Prop :=
  forall d h, holds !! d = Some h -> hold_ok d h.


(** The elements of a list, each at the place of its first occurrence. *)
Fixpoint first_occurrences (l : list string) : list string :=
  match l with
  | [] => []
  | a :: l' => a :: filter (fun b => b <> a) (first_occurrences l')
  end.

(** A payload that is one line and its terminator. *)
Definition one_line (payload : string) : Prop :=
  exists body, Py.lines_of payload = ([body], "").

End Tracker.

(** ** test_socket_server.py: [update_vision] and the frame counter *)

Module Frames.

Definition SAVE_VISION_FRAMES : bool := true.
Definition VISION_SAVE_INTERVAL : Z := 30.

(** [update_vision(full_game_state)] as a function of [frame_counter].
    [enabled] is [ENABLE_VISION and vision_system]; [generated] tells
    whether [generate_vision] returned: when it raises, the handler of
    line 161 is entered before the counter is touched ([display_vision]
    and [save_vision] catch their own exceptions).  The result is the new
    counter and the numbers of the frames given to [save_vision]. *)
Definition update_vision (enabled generated : bool) (frame_counter : Z)
    : Z * list Z :=
  if negb enabled then (frame_counter, [])
  else if generated then
    (frame_counter + 1,
     if SAVE_VISION_FRAMES && (frame_counter mod VISION_SAVE_INTERVAL =? 0)
     then [frame_counter] else [])
  else (frame_counter, []).

(** One call per decoded line, in order. *)
Definition update_all (enabled : bool) (generated : list bool)
    (frame_counter : Z) : Z * list Z :=
  foldl (fun acc g =>
           let '(c, saved) := update_vision enabled g acc.1 in
           (c, acc.2 ++ saved))
        (frame_counter, []) generated.

End Frames.

(** ** vision_system.py: the lane geometry *)

Module Vision.

Definition num_lanes : Z := 4.

(** [self.lane_width = width // self.num_lanes] *)
Definition lane_width (width : Z) : Z := width / num_lanes.

(** [direction_to_lane_x(direction)] *)
Definition direction_to_lane_x (width direction : Z) : Z :=
  if (0 <=? direction) && (direction <=? 3)
  then direction * lane_width width + lane_width width / 2
  else width / 2.

(** [create_base_strumline]: the x of the separator lines (lines 55-57)
    and of the hit-zone markers (lines 68-71). *)
Definition lane_separators (width : Z) : list Z :=
  (fun i => i * lane_width width) <$> seqZ 1 (num_lanes - 1).

Definition hit_zone_markers (width : Z) : list Z :=
  (fun i => i * lane_width width + lane_width width / 2) <$> seqZ 0 num_lanes.

End Vision.

(** ** ai_client.py: the receive loop and [send_command] *)

Module ClientLoop.
Import Client.

(** The outcome of [json.loads(line)] followed by [process_message]: the
    parser raises [JSONDecodeError] (caught at line 47); or it returns a
    value that is not an object, on which [message.get] raises an
    exception that no handler inside the loop catches; or it returns a
    message object. *)
Inductive loaded :=
  | JSONDecodeError
  | NotAnObject
  | Object (message : Message).

(** One [sock.recv(4096)] with [data.decode('utf-8')]: text; an empty
    read; bytes that are not UTF-8 (the strict decoder raises); a socket
    error. *)
Inductive recv_result :=
  | Received (text : string)
  | Closed
  | UndecodableBytes
  | SocketError.

(** [buffer], [scheduled_notes] and the threads started so far. *)
Record state := {
  buffer : string;
  scheduled_notes : gmap Z bool;
  started : list Task }.

Section Loop.

Variable json_loads : string -> loaded.

(** Lines 42-48 for one line; [None] when an exception leaves the loop. *)
Definition process_line (acc : gmap Z bool * list Task) (line : string)
    : option (gmap Z bool * list Task) :=
  if Py.truthy (Py.strip line) then
    match json_loads line with
    | Object message =>
        let '(scheduled, tasks) := process_message acc.1 message in
        Some (scheduled, acc.2 ++ tasks)
    | JSONDecodeError => Some acc
    | NotAnObject => None
    end
  else Some acc.

(** Lines 41-48: [for line in lines]; the boolean is [false] when an
    exception left the loop. *)
Fixpoint process_lines (acc : gmap Z bool * list Task) (lines : list string)
    : gmap Z bool * list Task * bool :=
  match lines with
  | [] => (acc, true)
  | line :: lines' =>
      match process_line acc line with
      | Some acc' => process_lines acc' lines'
      | None => (acc, false)
      end
  end.

(** Lines 24-53: one iteration of [while True]; the boolean tells whether
    the loop goes on. *)
Definition on_recv (st : state) (r : recv_result) : state * bool :=
  match r with
  | Received text =>
      let '(lines, buffer') := Py.pop_last (Py.split (buffer st ++ text)) in
      let '(acc, running) :=
        process_lines (scheduled_notes st, started st) lines in
      ({| buffer := buffer'; scheduled_notes := acc.1; started := acc.2 |},
       running)
  | Closed => (st, false)
  | UndecodableBytes => (st, false)
  | SocketError => (st, false)
  end.

Fixpoint run (st : state) (events : list recv_result) : state * bool :=
  match events with
  | [] => (st, true)
  | r :: events' =>
      let '(st', running) := on_recv st r in
      if running then run st' events' else (st', false)
  end.

(** The lines the loop body skips: blank, or not JSON. *)
Definition skipped (line : string) : bool :=
  negb (Py.truthy (Py.strip line))
  || match json_loads line with JSONDecodeError => true | _ => false end.

End Loop.

(** [json.dumps(command)] for the two commands of [hit_note]: keys in
    insertion order, separators [", "] and [": "]. *)
Definition dq : string := String "034"%char EmptyString.

Definition quoted (s : string) : string := (dq ++ s ++ dq)%string.

Definition str_int (z : Z) : string := NilZero.string_of_int (Z.to_int z).

Definition json_dumps (c : Command) : string :=
  ("{" ++ quoted "type" ++ ": " ++ quoted "input" ++ ", "
   ++ quoted "keyCode" ++ ": " ++ str_int (keyCode c) ++ ", "
   ++ quoted "pressed" ++ ": " ++ (if pressed c then "true" else "false")
   ++ "}")%string.

(** [send_command(sock, command)]: the text given to [sock.sendall]. *)
Definition send_command (c : Command) : string :=
  (json_dumps c ++ Py.nl)%string.

(** What a list of effects writes on the socket, in order. *)
Fixpoint written (effects : list effect) : string :=
  match effects with
  | [] => EmptyString
  | Send c :: rest => (send_command c ++ written rest)%string
  | Sleep _ :: rest => written rest
  end.

(** The commands a list of effects sends, and the time it sleeps. *)
Fixpoint sends (effects : list effect) : list Command :=
  match effects with
  | [] => []
  | Send c :: rest => c :: sends rest
  | Sleep _ :: rest => sends rest
  end.

Fixpoint total_sleep (effects : list effect) : Z :=
  match effects with
  | [] => 0
  | Sleep ms :: rest => ms + total_sleep rest
  | Send _ :: rest => total_sleep rest
  end.

End ClientLoop.

(** ** Concrete inputs used in the examples below *)

Module Examples.
Import Server.

(** A note of lane [d] with target time [strum], optional own clock
    reading [cond], hittable, neither hit nor missed. *)
Definition tap (d strum : Z) (cond : option Z) : Note :=
  {| direction := Some d; strumTime := Some strum; conductorTime := cond;
     isHoldNote := Some false; note_length := Some 0;
     mayHit := Some true; hasMissed := Some false; hasBeenHit := Some false |}.

(** The same as a hold note of [len] milliseconds. *)
Definition hold (d strum : Z) (cond : option Z) (len : Z) : Note :=
  {| direction := Some d; strumTime := Some strum; conductorTime := cond;
     isHoldNote := Some true; note_length := Some len;
     mayHit := Some true; hasMissed := Some false; hasBeenHit := Some false |}.

Definition snapshot (state : string) (is_playing : bool) (t : Z)
    (ns : list Note) : game_state :=
  {| mainState := Some state; isPlaying := Some is_playing;
     timestamp := Some t; notes := Some ns |}.

(** Lane 0 held until 1200 by a hold accepted at 1000. *)
Definition held_lane0 : gmap Z hold_data :=
  {[ 0 := new_hold 1000 (hold 0 1000 None 50) ]}.

End Examples.

Module ClientExamples.
Import Client.

(** A note of lane [d] with target time [strum] and the given
    [hasBeenHit] value; hittable, not missed, not too early. *)
Definition note (d strum : Z) (hit : bool) : Note :=
  {| direction := Some d; strumTime := Some strum; mayHit := Some true;
     hasMissed := Some false; tooEarly := Some false; hasBeenHit := Some hit |}.

Definition noteData (t : Z) (ns : list Note) : Message :=
  {| type := Some "noteData"; currentTime := Some t; currentNotes := Some ns |}.

End ClientExamples.

(** A decoder for the examples: ["{}"] is a PLAYING snapshot without
    notes, anything else is not JSON. *)
Definition example_loads (s : string) : Server.loaded :=
  if String.eqb s "{}"
  then Server.Snapshot (Examples.snapshot "PLAYING" true 1000 [])
  else Server.JSONDecodeError.


Definition example_state : Server.state :=
  {| Server.buffer := ("oops" ++ Py.nl ++ "{}" ++ Py.nl)%string;
     Server.active_holds := Examples.held_lane0;
     Server.sent := [] |}.

(** A decoder for the client examples: ["[]"] is JSON but no object,
    ["{}"] is a noteData message with one note of lane 2 due at 1100,
    anything else is not JSON. *)
Definition client_example_loads (s : string) : ClientLoop.loaded :=
  if String.eqb s "[]" then ClientLoop.NotAnObject
  else if String.eqb s "{}"
  then ClientLoop.Object
         (ClientExamples.noteData 1000 [ClientExamples.note 2 1100 false])
  else ClientLoop.JSONDecodeError.

Definition client_example_state : ClientLoop.state :=
  {| ClientLoop.buffer := "";
     ClientLoop.scheduled_notes := ∅;
     ClientLoop.started := [] |}.

(** * Properties *)

(** ** Dictionary helpers *)

Section PyFacts.
Context {V : Type}.
Implicit Types (d : gmap Z V) (keys : list Z) (k : Z).

Lemma lookup_remove_keys keys d k :
  Py.remove_keys keys d !! k = if bool_decide (k ∈ keys) then None else d !! k.
Proof.
  revert d. induction keys as [|x keys IH]; intros d; simpl.
  - done.
  - unfold Py.remove_keys in *. simpl. rewrite IH.
    destruct (decide (k = x)) as [->|Hne].
    + rewrite lookup_delete_eq.
      rewrite (bool_decide_eq_true_2 (x ∈ x :: keys)) by apply list_elem_of_here.
      by case_bool_decide.
    + rewrite lookup_delete_ne by done.
      rewrite (bool_decide_ext (k ∈ x :: keys) (k ∈ keys)); [done|].
      rewrite elem_of_cons. tauto.
Qed.

Lemma elem_of_keys_where (p : Z -> V -> bool) d k :
  k ∈ Py.keys_where p d <-> exists v, d !! k = Some v /\ p k v = true.
Proof.
  unfold Py.keys_where. rewrite list_elem_of_fmap. split.
  - intros [[k' v] [-> Hin]]. apply list_elem_of_filter in Hin as [Hp Hin].
    apply elem_of_map_to_list in Hin. eauto.
  - intros (v & Hk & Hp). exists (k, v). split; [done|].
    apply list_elem_of_filter. split; [done|]. by apply elem_of_map_to_list.
Qed.

Lemma lookup_remove_where (p : Z -> V -> bool) d k :
  Py.remove_keys (Py.keys_where p d) d !! k =
  match d !! k with
  | Some v => if p k v then None else Some v
  | None => None
  end.
Proof.
  rewrite lookup_remove_keys. case_bool_decide as Hin.
  - apply elem_of_keys_where in Hin as (v & -> & ->). done.
  - destruct (d !! k) as [v|] eqn:Hk; [|done].
    destruct (p k v) eqn:Hp; [|done].
    exfalso. apply Hin, elem_of_keys_where. eauto.
Qed.

End PyFacts.

(** ** The hit-window evaluator and the hold tracker *)

Module ServerSpec.
Import Server.

(** *** The sort of line 114 *)

Lemma insert_by_diff_perm x l : insert_by_diff x l ≡ₚ x :: l.
Proof.
  induction l as [|y l IH]; simpl; [done|].
  destruct (x.2 <=? y.2); [done|]. rewrite IH. apply Permutation_swap.
Qed.

Lemma sort_by_diff_perm l : sort_by_diff l ≡ₚ l.
Proof.
  induction l as [|x l IH]; simpl; [done|].
  rewrite insert_by_diff_perm. by rewrite IH.
Qed.

Lemma insert_by_diff_sorted x l :
  Sorted diff_le l -> Sorted diff_le (insert_by_diff x l).
Proof.
  induction l as [|y l IH]; simpl; intros Hs.
  - repeat constructor.
  - destruct (Z.leb_spec (x.2) (y.2)) as [Hle|Hgt].
    + constructor; [done|]. by constructor.
    + apply Sorted_inv in Hs as [Hs Hhd]. constructor; [by apply IH|].
      destruct l as [|z l]; simpl.
      * constructor. unfold diff_le. lia.
      * destruct (x.2 <=? z.2); constructor.
        -- unfold diff_le. lia.
        -- by apply HdRel_inv in Hhd.
Qed.

Lemma sort_by_diff_sorted l : Sorted diff_le (sort_by_diff l).
Proof.
  induction l as [|x l IH]; simpl; [constructor|].
  by apply insert_by_diff_sorted.
Qed.

(** Stability: entries with equal keys keep their relative order. *)
Lemma insert_by_diff_stable (k : Z) x l :
  filter (fun y => y.2 = k) (insert_by_diff x l)
  = filter (fun y => y.2 = k) (x :: l).
Proof.
  induction l as [|y l IH]; simpl; [done|].
  destruct (Z.leb_spec (x.2) (y.2)) as [Hle|Hgt]; [done|].
  rewrite filter_cons, IH, !filter_cons.
  repeat case_decide; try done; lia.
Qed.

Lemma sort_by_diff_stable (k : Z) l :
  filter (fun y => y.2 = k) (sort_by_diff l) = filter (fun y => y.2 = k) l.
Proof.
  induction l as [|x l IH]; simpl; [done|].
  rewrite insert_by_diff_stable, !filter_cons, IH. done.
Qed.

(** The head of the sorted list is the first entry with the least key. *)
Lemma first_min_unique l i x j y :
  first_min l i x -> first_min l j y -> i = j /\ x = y.
Proof.
  intros (Hi & Hmin & Hfst) (Hj & Hmin' & Hfst').
  destruct (Nat.lt_trichotomy i j) as [Hlt|[->|Hlt]].
  - specialize (Hfst' _ _ Hlt Hi). specialize (Hmin _ _ Hj). lia.
  - split; congruence.
  - specialize (Hfst _ _ Hlt Hj). specialize (Hmin' _ _ Hi). lia.
Qed.

Lemma head_insert_by_diff x l :
  head (insert_by_diff x l) =
  match head l with
  | Some y => if x.2 <=? y.2 then Some x else Some y
  | None => Some x
  end.
Proof. destruct l as [|y l]; simpl; [done|]. by destruct (x.2 <=? y.2). Qed.

Lemma head_sort_exists l :
  match head (sort_by_diff l) with
  | Some x => exists i, first_min l i x
  | None => l = []
  end.
Proof.
  induction l as [|a l IH]; simpl; [done|].
  rewrite head_insert_by_diff.
  destruct (head (sort_by_diff l)) as [y|].
  - destruct IH as (i & Hi & Hmin & Hfst).
    destruct (Z.leb_spec (a.2) (y.2)) as [Hle|Hgt].
    + exists 0%nat. split; [done|]. split.
      * intros [|j] z Hz; simpl in Hz; [by inversion Hz; lia|].
        specialize (Hmin _ _ Hz). lia.
      * intros j z Hj. lia.
    + exists (S i). split; [done|]. split.
      * intros [|j] z Hz; simpl in Hz; [inversion Hz; subst; lia|]. eauto.
      * intros [|j] z Hj Hz; simpl in Hz; [inversion Hz; subst; lia|].
        apply (Hfst j); [lia|done].
  - subst l. exists 0%nat. split; [done|]. split.
    + intros [|j] z Hz; simpl in Hz; [inversion Hz; lia|done].
    + intros j z Hj. lia.
Qed.

Lemma head_sort_first_min l x :
  head (sort_by_diff l) = Some x <-> exists i, first_min l i x.
Proof.
  pose proof (head_sort_exists l) as H.
  destruct (head (sort_by_diff l)) as [y|].
  - destruct H as [i Hi]. split.
    + intros [= <-]. eauto.
    + intros [j Hj]. f_equal. by destruct (first_min_unique _ _ _ _ _ Hi Hj).
  - subst l. split; [done|]. intros (i & Hi & _). by destruct i.
Qed.

(** *** One lane, then the four lanes *)

Section Lanes.
Variables (ts : Z) (notes_data : list Note).
Implicit Types (h : gmap Z hold_data) (a : list string) (d : Z).

Lemma lane_step_eq h a d :
  lane_step ts notes_data (h, a) d =
  if bool_decide (is_Some (h !! d)) then (h, a ++ [get_key_for_direction d])
  else
    match accepted d ts notes_data with
    | Some b =>
        if bool_decide (get_key_for_direction d <> "none") then
          (if default false (isHoldNote b) then <[d := new_hold ts b]> h else h,
           a ++ [get_key_for_direction d])
        else (h, a)
    | None => (h, a)
    end.
Proof.
  unfold lane_step, accepted. case_bool_decide; [done|].
  destruct (sort_by_diff _) as [|[b k] l]; [done|].
  destruct (k <=? 80); [|done]. case_bool_decide; [|done].
  by destruct (default false (isHoldNote b)).
Qed.

Lemma lane_step_actions h a d :
  (lane_step ts notes_data (h, a) d).2 =
  a ++ (if lane_fires ts notes_data h d then [get_key_for_direction d] else []).
Proof.
  rewrite lane_step_eq. unfold lane_fires.
  case_bool_decide as Hh; simpl; [done|].
  destruct (accepted d ts notes_data) as [b|] eqn:Hacc.
  - rewrite (bool_decide_eq_true_2 (is_Some (Some b))) by (by eexists). simpl.
    case_bool_decide; simpl; [done|]. by rewrite app_nil_r.
  - rewrite (bool_decide_eq_false_2 (is_Some None)) by (by intros [? ?]). simpl.
    by rewrite app_nil_r.
Qed.

Lemma lane_step_holds_ne h a d d' :
  d' <> d -> (lane_step ts notes_data (h, a) d).1 !! d' = h !! d'.
Proof.
  intros Hne. rewrite lane_step_eq. case_bool_decide; [done|].
  destruct (accepted d ts notes_data) as [b|]; [|done].
  case_bool_decide; [|done]. simpl.
  destruct (default false (isHoldNote b)); [|done].
  by rewrite lookup_insert_ne.
Qed.

Lemma lane_step_holds_eq h a d :
  (lane_step ts notes_data (h, a) d).1 !! d = lane_hold ts notes_data h d.
Proof.
  rewrite lane_step_eq. unfold lane_hold. case_bool_decide as Hh.
  - destruct Hh as [x Hx]. simpl. by rewrite Hx.
  - assert (h !! d = None) as Hn
      by (destruct (h !! d) eqn:E; [exfalso; eauto | done]).
    rewrite Hn. destruct (accepted d ts notes_data) as [b|]; [|done].
    case_bool_decide; simpl; [|done].
    destruct (default false (isHoldNote b)); simpl; [|done].
    by rewrite lookup_insert_eq.
Qed.

Lemma lane_fires_ext h h' d :
  h' !! d = h !! d -> lane_fires ts notes_data h' d = lane_fires ts notes_data h d.
Proof. unfold lane_fires. by intros ->. Qed.

Lemma lane_hold_ext h h' d :
  h' !! d = h !! d -> lane_hold ts notes_data h' d = lane_hold ts notes_data h d.
Proof. unfold lane_hold. by intros ->. Qed.

(** The loop over a list of distinct directions. *)
Lemma fold_lanes ds :
  NoDup ds -> forall h a,
  (forall d, d ∉ ds ->
     (foldl (lane_step ts notes_data) (h, a) ds).1 !! d = h !! d)
  /\ (forall d, d ∈ ds ->
       (foldl (lane_step ts notes_data) (h, a) ds).1 !! d
       = lane_hold ts notes_data h d)
  /\ (foldl (lane_step ts notes_data) (h, a) ds).2
     = a ++ concat (map (fun d => if lane_fires ts notes_data h d
                                  then [get_key_for_direction d] else [])
                      ds).
Proof.
  induction 1 as [|x ds Hx Hnd IH]; intros h a; cbn [foldl map concat].
  - split; [done|]. split; [by intros d Hd; apply elem_of_nil in Hd|].
    simpl. by rewrite app_nil_r.
  - pose proof (lane_step_actions h a x) as Ha.
    pose proof (lane_step_holds_eq h a x) as Heq.
    pose proof (fun d' => lane_step_holds_ne h a x d') as Hne.
    destruct (lane_step ts notes_data (h, a) x) as [h1 a1]. cbn [fst snd] in *.
    destruct (IH h1 a1) as (I1 & I2 & I3). split; [|split].
    + intros d Hd. apply not_elem_of_cons in Hd as [Hdx Hd].
      rewrite I1 by done. by apply Hne.
    + intros d Hd. apply elem_of_cons in Hd as [->|Hd].
      * rewrite I1 by done. done.
      * rewrite I2 by done. apply lane_hold_ext, Hne.
        intros ->. done.
    + rewrite I3, Ha, <- app_assoc. f_equal. f_equal. f_equal.
      apply map_ext_in. intros d Hd. apply list_elem_of_In in Hd.
      rewrite (lane_fires_ext h h1 d); [done|]. apply Hne. by intros ->.
Qed.

End Lanes.

Lemma lanes_NoDup : NoDup [0; 1; 2; 3].
Proof. apply NoDup_ListNoDup. repeat constructor; simpl; intros H; lia. Qed.

Lemma lookup_release_expired ts (h : gmap Z hold_data) d :
  release_expired ts h !! d =
  match h !! d with
  | Some x => if end_time x <=? ts then None else Some x
  | None => None
  end.
Proof. unfold release_expired, directions_to_release. apply lookup_remove_where. Qed.

Lemma release_expired_free ts (h : gmap Z hold_data) d :
  ~ alive ts h d <-> release_expired ts h !! d = None.
Proof.
  rewrite lookup_release_expired. unfold alive. split.
  - intros Hna. destruct (h !! d) as [x|] eqn:Hx; [|done].
    destruct (Z.leb_spec (end_time x) ts); [done|]. exfalso. eauto.
  - intros Hn (x & Hx & Hlt). rewrite Hx in Hn.
    destruct (Z.leb_spec (end_time x) ts); [lia|done].
Qed.

(** [analyze_notes] on a non-empty list of notes. *)
Lemma analyze_notes_nonempty now holds notes_data game_timestamp :
  notes_data <> [] ->
  analyze_notes now holds notes_data game_timestamp =
  foldl (lane_step (default now game_timestamp) notes_data)
    (release_expired (default now game_timestamp) holds, []) [0; 1; 2; 3].
Proof. by destruct notes_data. Qed.

Section Analyze.
Variables (now : Z) (holds : gmap Z hold_data) (notes_data : list Note)
  (game_timestamp : option Z).
Hypothesis nonempty : notes_data <> [].

Let ts := default now game_timestamp.
Let h1 := release_expired ts holds.

Lemma analyze_notes_actions :
  (analyze_notes now holds notes_data game_timestamp).2 =
  concat (map (fun d => if lane_fires ts notes_data h1 d
                        then [get_key_for_direction d] else [])
            [0; 1; 2; 3]).
Proof.
  rewrite analyze_notes_nonempty by done.
  destruct (fold_lanes ts notes_data _ lanes_NoDup h1 []) as (_ & _ & H).
  exact H.
Qed.

Lemma analyze_notes_holds_lane d :
  d ∈ [0; 1; 2; 3] ->
  (analyze_notes now holds notes_data game_timestamp).1 !! d
  = lane_hold ts notes_data h1 d.
Proof.
  intros Hd. rewrite analyze_notes_nonempty by done.
  destruct (fold_lanes ts notes_data _ lanes_NoDup h1 []) as (_ & H & _).
  by apply H.
Qed.

Lemma analyze_notes_holds_other d :
  d ∉ [0; 1; 2; 3] ->
  (analyze_notes now holds notes_data game_timestamp).1 !! d = h1 !! d.
Proof.
  intros Hd. rewrite analyze_notes_nonempty by done.
  destruct (fold_lanes ts notes_data _ lanes_NoDup h1 []) as (H & _ & _).
  by apply H.
Qed.

Lemma analyze_notes_emits L :
  L ∈ [0; 1; 2; 3] ->
  emits L (analyze_notes now holds notes_data game_timestamp).2
  <-> lane_fires ts notes_data h1 L = true.
Proof.
  intros HL. unfold emits. rewrite analyze_notes_actions. simpl.
  repeat (apply elem_of_cons in HL as [->|HL]); [..|by apply elem_of_nil in HL];
    destruct (lane_fires ts notes_data h1 0), (lane_fires ts notes_data h1 1),
      (lane_fires ts notes_data h1 2), (lane_fires ts notes_data h1 3);
    simpl; rewrite ?elem_of_cons, ?elem_of_nil; split; intros H;
    try done; try (intuition discriminate); tauto.
Qed.

End Analyze.

(** *** The code's filter and sort against the specification's wording *)

Lemma time_difference_spec ts n : time_difference ts n = timeDifference ts n.
Proof. unfold time_difference, timeDifference, referenceTime. by destruct (conductorTime n). Qed.

Lemma selectable_candidate L ts n :
  selectable L n && in_hit_window (time_difference ts n) = true
  <-> is_candidate L ts n.
Proof.
  unfold selectable, in_hit_window, is_candidate, HIT_WINDOW_MS.
  rewrite time_difference_spec.
  rewrite !andb_true_iff, bool_decide_eq_true, !negb_true_iff, !Z.leb_le.
  tauto.
Qed.

Lemma hitable_notes_candidates L ts notes_data :
  hitable_notes L ts notes_data =
  map (fun n => (n, Z.abs (timeDifference ts n))) (candidates L ts notes_data).
Proof.
  unfold candidates. induction notes_data as [|n ns IH]; [done|].
  cbn [hitable_notes]. rewrite filter_cons, IH.
  pose proof (selectable_candidate L ts n) as Hc.
  destruct (selectable L n) eqn:Hs; simpl in Hc.
  - destruct (in_hit_window (time_difference ts n)) eqn:Hw.
    + rewrite decide_True by (by apply Hc). simpl.
      by rewrite time_difference_spec.
    + rewrite decide_False; [done|]. intros H. apply Hc in H. done.
  - rewrite decide_False; [done|]. intros H. apply Hc in H. done.
Qed.

Lemma accepted_head d ts notes_data :
  accepted d ts notes_data =
  match head (sort_by_diff (hitable_notes d ts notes_data)) with
  | Some (b, k) => if k <=? 80 then Some b else None
  | None => None
  end.
Proof. unfold accepted. by destruct (sort_by_diff _) as [|[b k] l]. Qed.

Lemma accepted_chosen L ts notes_data b :
  accepted L ts notes_data = Some b
  <-> chosen L ts notes_data b /\ Z.abs (timeDifference ts b) <= 80.
Proof.
  rewrite accepted_head, hitable_notes_candidates. unfold chosen.
  set (cs := candidates L ts notes_data).
  set (g := fun n : Note => (n, Z.abs (timeDifference ts n))).
  assert (forall j n, cs !! j = Some n -> map g cs !! j = Some (g n)) as Hg.
  { intros j n Hj. change (map g cs) with (g <$> cs).
    by rewrite list_lookup_fmap, Hj. }
  split.
  - destruct (head (sort_by_diff (map g cs))) as [[b' k]|] eqn:Hh; [|done].
    destruct (Z.leb_spec k 80) as [Hk|]; [|done]. intros [= ->].
    apply head_sort_first_min in Hh as (i & Hi & Hmin & Hfst).
    change (map g cs) with (g <$> cs) in Hi.
    rewrite list_lookup_fmap in Hi.
    destruct (cs !! i) as [n|] eqn:Hn; [|done]. simpl in Hi.
    injection Hi as -> <-. split; [|done].
    exists i. split; [done|]. split.
    + intros j m Hj. exact (Hmin j (g m) (Hg _ _ Hj)).
    + intros j m Hlt Hj. exact (Hfst j (g m) Hlt (Hg _ _ Hj)).
  - intros [(i & Hi & Hmin & Hfst) Hk].
    assert (head (sort_by_diff (map g cs)) = Some (g b)) as ->.
    { apply head_sort_first_min. exists i. split; [by apply Hg|]. split.
      - intros j y Hy. change (map g cs) with (g <$> cs) in Hy.
        rewrite list_lookup_fmap in Hy.
        destruct (cs !! j) as [m|] eqn:Hm; [|done]. injection Hy as <-.
        exact (Hmin j m Hm).
      - intros j y Hlt Hy. change (map g cs) with (g <$> cs) in Hy.
        rewrite list_lookup_fmap in Hy.
        destruct (cs !! j) as [m|] eqn:Hm; [|done]. injection Hy as <-.
        exact (Hfst j m Hlt Hm). }
    unfold g. destruct (Z.leb_spec (Z.abs (timeDifference ts b)) 80); [done|lia].
Qed.

Lemma key_of_lane L : L ∈ [0; 1; 2; 3] -> get_key_for_direction L <> "none".
Proof.
  intros HL.
  repeat (apply elem_of_cons in HL as [->|HL]); [..|by apply elem_of_nil in HL];
    done.
Qed.

Lemma analyze_notes_empty now holds game_timestamp :
  analyze_notes now holds [] game_timestamp = (holds, []).
Proof. done. Qed.

Lemma process_game_state_playing now holds gs :
  playing gs ->
  process_game_state now holds gs =
  ((evaluate now holds gs).1,
   (format_actions (evaluate now holds gs).2 ++ Py.nl)%string).
Proof.
  intros [Hm Hp]. unfold process_game_state, evaluate.
  rewrite Hm, Hp. rewrite bool_decide_eq_true_2 by done. simpl.
  by destruct (analyze_notes _ _ _ _).
Qed.

Lemma process_game_state_not_playing now holds gs :
  ~ playing gs ->
  process_game_state now holds gs = (∅, ("none" ++ Py.nl)%string).
Proof.
  intros Hnp. unfold process_game_state.
  case_bool_decide as Hm; simpl; [|done].
  destruct (isPlaying gs) as [[|]|] eqn:Hp; simpl; try done.
  exfalso. apply Hnp. by split.
Qed.

(** *** C1 *)

(** C1. For a PLAYING snapshot and a lane [L] in 0..3 without a live hold,
    the evaluator puts the key of [L] in its action list exactly when the
    notes of lane [L] that are not hit, not missed, hittable and within
    [-160, 160] ms of their reference time are not empty and the first of
    those with the least [|timeDifference|] is within 80 ms; the action
    list is what the response is formatted from. *)
Theorem C1_press_iff_nearest_candidate_within_80 now holds gs L :
  playing gs ->
  L ∈ [0; 1; 2; 3] ->
  ~ alive (default now (timestamp gs)) holds L ->
  (process_game_state now holds gs).2
  = (format_actions (evaluate now holds gs).2 ++ Py.nl)%string
  /\ (emits L (evaluate now holds gs).2
      <-> exists b,
            chosen L (default now (timestamp gs)) (default [] (notes gs)) b
            /\ Z.abs (timeDifference (default now (timestamp gs)) b) <= 80).
Proof.
  intros Hplay HL Hfree. split.
  { by rewrite process_game_state_playing. }
  unfold evaluate. set (ts := default now (timestamp gs)) in *.
  set (ns := default [] (notes gs)).
  destruct (decide (ns = [])) as [Hempty|Hne].
  - rewrite Hempty, analyze_notes_empty. unfold emits. simpl. split.
    + intros H. by apply elem_of_nil in H.
    + intros (b & (i & Hi & _) & _). unfold candidates in Hi.
      by rewrite filter_nil in Hi.
  - rewrite analyze_notes_emits by done. simpl. fold ts.
    apply release_expired_free in Hfree. unfold lane_fires. rewrite Hfree.
    rewrite (bool_decide_eq_false_2 (is_Some None)) by (by intros [? ?]).
    rewrite (bool_decide_eq_true_2 (get_key_for_direction L <> "none"))
      by (by apply key_of_lane).
    rewrite orb_false_l, andb_true_r, bool_decide_eq_true. split.
    + intros [b Hb]. exists b. by apply accepted_chosen.
    + intros (b & Hb). exists b. by apply accepted_chosen.
Qed.

Example C1_example_boundaries :
  let ev ns := (evaluate 0 ∅ (Examples.snapshot "PLAYING" true 1000 ns)).2 in
  ev [Examples.tap 0 1080 None] = ["left"]
  /\ ev [Examples.tap 0 1081 None] = []
  /\ ev [Examples.tap 0 920 None] = ["left"]
  /\ ev [Examples.tap 0 919 None] = []
  /\ ev [Examples.tap 1 1090 None; Examples.tap 1 960 None] = ["down"]
  /\ ev [Examples.tap 2 1161 None; Examples.tap 2 1200 (Some 1130)] = ["up"].
Proof. vm_compute. done. Qed.

Lemma C1_witness :
  (process_game_state 0 ∅
     (Examples.snapshot "PLAYING" true 1000
        [Examples.tap 1 1090 None; Examples.tap 1 960 None])).2
  = (format_actions
       (evaluate 0 ∅
          (Examples.snapshot "PLAYING" true 1000
             [Examples.tap 1 1090 None; Examples.tap 1 960 None])).2 ++ Py.nl)%string
  /\ (emits 1
        (evaluate 0 ∅
           (Examples.snapshot "PLAYING" true 1000
              [Examples.tap 1 1090 None; Examples.tap 1 960 None])).2
      <-> exists b,
            chosen 1 1000 [Examples.tap 1 1090 None; Examples.tap 1 960 None] b
            /\ Z.abs (timeDifference 1000 b) <= 80).
Proof.
  apply (C1_press_iff_nearest_candidate_within_80 0 ∅
           (Examples.snapshot "PLAYING" true 1000
              [Examples.tap 1 1090 None; Examples.tap 1 960 None]) 1).
  - split; reflexivity.
  - apply list_elem_of_In. simpl. tauto.
  - intros (h & Hh & _). vm_compute in Hh. discriminate Hh.
Defined.

(** *** C2 *)

Lemma accepted_hold_entry now holds notes_data game_timestamp L b :
  L ∈ [0; 1; 2; 3] ->
  ~ alive (default now game_timestamp) holds L ->
  accepted L (default now game_timestamp) notes_data = Some b ->
  default false (isHoldNote b) = true ->
  (analyze_notes now holds notes_data game_timestamp).1 !! L
  = Some (new_hold (default now game_timestamp) b).
Proof.
  intros HL Hfree Hacc Hhold.
  assert (notes_data <> []) as Hne.
  { intros ->. unfold accepted in Hacc. simpl in Hacc. done. }
  rewrite analyze_notes_holds_lane by done. unfold lane_hold.
  apply release_expired_free in Hfree. rewrite Hfree, Hacc, Hhold.
  by rewrite (bool_decide_eq_true_2 _ (key_of_lane L HL)).
Qed.

(** C2 (as amended). When the evaluator accepts a hold note [b] for a lane
    of a PLAYING snapshot, the entry it creates for the lane has
    [end_time = T + max(holdLengthMs, 200)] and [start_time = T], where [T]
    is the snapshot's timestamp, whether or not the note carries its own
    [conductorTime]; with [holdLengthMs = 50] the end time is [T + 200]. *)
Theorem C2_hold_end_time_from_snapshot_timestamp now holds gs L b :
  playing gs ->
  L ∈ [0; 1; 2; 3] ->
  ~ alive (default now (timestamp gs)) holds L ->
  chosen L (default now (timestamp gs)) (default [] (notes gs)) b ->
  Z.abs (timeDifference (default now (timestamp gs)) b) <= 80 ->
  isHoldNote b = Some true ->
  exists h,
    (process_game_state now holds gs).1 !! L = Some h
    /\ note h = b
    /\ start_time h = default now (timestamp gs)
    /\ end_time h
       = default now (timestamp gs) + Z.max (default 0 (note_length b)) 200
    /\ (note_length b = Some 50 -> end_time h = default now (timestamp gs) + 200).
Proof.
  intros Hplay HL Hfree Hch Hk Hhold.
  exists (new_hold (default now (timestamp gs)) b).
  rewrite process_game_state_playing by done. cbn [fst]. unfold evaluate.
  split; [|split; [done|split; [done|split; [done|]]]].
  - apply (accepted_hold_entry now holds (default [] (notes gs))
             (Some (default now (timestamp gs))) L b); try done.
    + by apply accepted_chosen.
    + by rewrite Hhold.
  - intros Hlen. simpl. rewrite Hlen. simpl. lia.
Qed.

Lemma C2_witness :
  exists h,
    (process_game_state 0 ∅
       (Examples.snapshot "PLAYING" true 5000
          [Examples.hold 0 1000 (Some 1000) 50])).1 !! 0 = Some h
    /\ note h = Examples.hold 0 1000 (Some 1000) 50
    /\ start_time h = 5000
    /\ end_time h = 5000 + Z.max 50 200
    /\ (Some 50 = Some 50 -> end_time h = 5000 + 200).
Proof.
  apply (C2_hold_end_time_from_snapshot_timestamp 0 ∅
           (Examples.snapshot "PLAYING" true 5000
              [Examples.hold 0 1000 (Some 1000) 50]) 0
           (Examples.hold 0 1000 (Some 1000) 50)).
  - split; reflexivity.
  - apply list_elem_of_In. simpl. tauto.
  - intros (h & Hh & _). vm_compute in Hh. discriminate Hh.
  - exists 0%nat. split; [reflexivity|]. split.
    + intros [|[|j]] n Hn; vm_compute in Hn; [|discriminate Hn..].
      injection Hn as <-. vm_compute. discriminate.
    + intros j n Hj. lia.
  - vm_compute. discriminate.
  - reflexivity.
Defined.

(** C2 as stated fails: a hold note that carries its own [conductorTime]
    (1000) is accepted in a snapshot with timestamp 5000; its reference
    time is 1000, yet the entry ends at 5000 + 200, not at 1000 + 200. *)
Lemma C2_counterexample :
  playing (Examples.snapshot "PLAYING" true 5000
             [Examples.hold 0 1000 (Some 1000) 50])
  /\ accepted 0 5000 [Examples.hold 0 1000 (Some 1000) 50]
     = Some (Examples.hold 0 1000 (Some 1000) 50)
  /\ referenceTime 5000 (Examples.hold 0 1000 (Some 1000) 50) = 1000
  /\ end_time <$>
       (process_game_state 0 ∅
          (Examples.snapshot "PLAYING" true 5000
             [Examples.hold 0 1000 (Some 1000) 50])).1 !! 0
     = Some 5200
  /\ 5200 <> referenceTime 5000 (Examples.hold 0 1000 (Some 1000) 50)
             + Z.max 50 200.
Proof. vm_compute. repeat split; discriminate. Qed.

(** *** C3 *)

(** C3. For a snapshot whose [mainState] is not PLAYING or whose
    [isPlaying] is not true, the response is ["none"] and [active_holds]
    is empty afterwards, whatever it held before; so for the line that
    carried the snapshot in the receive loop. *)
Theorem C3_not_playing_none_and_clear
    (json_loads : string -> loaded) now holds gs line :
  mainState gs <> Some "PLAYING" \/ default false (isPlaying gs) = false ->
  process_game_state now holds gs = (∅, ("none" ++ Py.nl)%string)
  /\ (forall L, (process_game_state now holds gs).1 !! L = None)
  /\ (Py.truthy (Py.strip line) = true ->
      json_loads (Py.strip line) = Snapshot gs ->
      process_line json_loads now holds line = (∅, [("none" ++ Py.nl)%string])).
Proof.
  intros Hnp.
  assert (process_game_state now holds gs = (∅, ("none" ++ Py.nl)%string)) as E.
  { apply process_game_state_not_playing. intros [Hm Hp].
    destruct Hnp as [Hnp|Hnp]; [done|]. by rewrite Hp in Hnp. }
  split; [done|]. split.
  - intros L. by rewrite E.
  - intros Ht Hl. unfold process_line. by rewrite Ht, Hl, E.
Qed.

Lemma C3_witness :
  process_game_state 2000 Examples.held_lane0
    (Examples.snapshot "WAITING" true 1100 [Examples.tap 0 1100 None])
  = (∅, ("none" ++ Py.nl)%string)
  /\ (forall L,
        (process_game_state 2000 Examples.held_lane0
           (Examples.snapshot "WAITING" true 1100 [Examples.tap 0 1100 None])).1
        !! L = None)
  /\ (Py.truthy (Py.strip "{}") = true ->
      (fun _ => Snapshot (Examples.snapshot "WAITING" true 1100
                            [Examples.tap 0 1100 None])) (Py.strip "{}")
      = Snapshot (Examples.snapshot "WAITING" true 1100
                    [Examples.tap 0 1100 None]) ->
      process_line
        (fun _ => Snapshot (Examples.snapshot "WAITING" true 1100
                              [Examples.tap 0 1100 None]))
        2000 Examples.held_lane0 "{}"
      = (∅, [("none" ++ Py.nl)%string])).
Proof.
  apply (C3_not_playing_none_and_clear
           (fun _ => Snapshot (Examples.snapshot "WAITING" true 1100
                                 [Examples.tap 0 1100 None]))
           2000 Examples.held_lane0
           (Examples.snapshot "WAITING" true 1100 [Examples.tap 0 1100 None])
           "{}").
  left. simpl. discriminate.
Defined.

(** *** The tracker on cycles that reach the expiry check *)

Lemma analyze_notes_lanes_only now holds notes_data game_timestamp :
  lanes_only holds ->
  lanes_only (analyze_notes now holds notes_data game_timestamp).1.
Proof.
  intros Hl d Hd. destruct (decide (notes_data = [])) as [->|Hne].
  { by apply Hl. }
  destruct (decide (d ∈ [0; 1; 2; 3])) as [|Hout]; [done|].
  rewrite analyze_notes_holds_other in Hd by done.
  rewrite lookup_release_expired in Hd. apply Hl.
  destruct (holds !! d); [by eexists|]. by destruct Hd.
Qed.

(** With a non-empty list of notes: a hold whose end time has been reached
    is removed before the lanes are evaluated. *)
Lemma tracker_releases_expired ts holds L h :
  holds !! L = Some h -> end_time h <= ts ->
  release_expired ts holds !! L = None.
Proof.
  intros Hh Hexp. rewrite lookup_release_expired, Hh.
  by destruct (Z.leb_spec (end_time h) ts); [|lia].
Qed.

(** With a non-empty list of notes: a live hold is kept as it is (the lane
    is not armed with another note) and its key is in the actions. *)
Lemma tracker_keeps_live now holds notes_data game_timestamp L h :
  notes_data <> [] ->
  L ∈ [0; 1; 2; 3] ->
  holds !! L = Some h -> default now game_timestamp < end_time h ->
  (analyze_notes now holds notes_data game_timestamp).1 !! L = Some h
  /\ emits L (analyze_notes now holds notes_data game_timestamp).2.
Proof.
  intros Hne HL Hh Hlive.
  assert (release_expired (default now game_timestamp) holds !! L = Some h) as E.
  { rewrite lookup_release_expired, Hh.
    by destruct (Z.leb_spec (end_time h) (default now game_timestamp)); [lia|]. }
  split.
  - rewrite analyze_notes_holds_lane by done. unfold lane_hold. by rewrite E.
  - apply analyze_notes_emits; [done..|]. unfold lane_fires. rewrite E.
    by rewrite (bool_decide_eq_true_2 (is_Some (Some h))) by (by eexists).
Qed.

(** An entry present after a cycle was either there before, unchanged and
    still live, or was created in this cycle for a lane that was free. *)
Lemma tracker_entry_origin now holds notes_data game_timestamp L h :
  notes_data <> [] ->
  L ∈ [0; 1; 2; 3] ->
  (analyze_notes now holds notes_data game_timestamp).1 !! L = Some h ->
  (holds !! L = Some h /\ default now game_timestamp < end_time h)
  \/ (~ alive (default now game_timestamp) holds L
      /\ exists b, accepted L (default now game_timestamp) notes_data = Some b
                   /\ h = new_hold (default now game_timestamp) b).
Proof.
  intros Hne HL. rewrite analyze_notes_holds_lane by done. unfold lane_hold.
  destruct (release_expired _ holds !! L) as [x|] eqn:E.
  - intros [= ->]. left. rewrite lookup_release_expired in E.
    destruct (holds !! L) as [y|]; [|done].
    destruct (Z.leb_spec (end_time y) (default now game_timestamp)); [done|].
    injection E as ->. done.
  - intros Hacc. right. split; [by apply release_expired_free|].
    destruct (accepted L _ notes_data) as [b|]; [|done].
    destruct (_ && _); [|done]. injection Hacc as <-. eauto.
Qed.

(** *** C4 *)

(** C4 at the failing input: a hold of 50 ms accepted on lane 0 at 1000
    is held until 1200; a PLAYING snapshot with timestamp 2000 and an empty
    list of notes is then processed; the entry of lane 0 is still in
    [active_holds] afterwards, although 2000 >= 1200 and the expiry check
    would remove it. *)
Theorem C4_expired_hold_survives_empty_notes :
  (process_game_state 0 ∅
     (Examples.snapshot "PLAYING" true 1000 [Examples.hold 0 1000 None 50])).1
  = Examples.held_lane0
  /\ playing (Examples.snapshot "PLAYING" true 2000 [])
  /\ end_time <$> Examples.held_lane0 !! 0 = Some 1200
  /\ (process_game_state 0 Examples.held_lane0
        (Examples.snapshot "PLAYING" true 2000 [])).1 !! 0
     = Examples.held_lane0 !! 0
  /\ release_expired 2000 Examples.held_lane0 !! 0 = None.
Proof. vm_compute. done. Qed.

(** *** C5 *)

(** C5 at the failing input: a hold of 50 ms accepted on lane 0 at 1000 is
    held until 1200; a PLAYING snapshot with timestamp 1100 and an empty
    list of notes is answered with ["none"]: the live hold of lane 0 is
    not reported (with one note of another lane in the snapshot it is). *)
Theorem C5_live_hold_not_reported_on_empty_notes :
  (process_game_state 0 ∅
     (Examples.snapshot "PLAYING" true 1000 [Examples.hold 0 1000 None 50]))
  = (Examples.held_lane0, ("left" ++ Py.nl)%string)
  /\ playing (Examples.snapshot "PLAYING" true 1100 [])
  /\ alive 1100 Examples.held_lane0 0
  /\ process_game_state 0 Examples.held_lane0
       (Examples.snapshot "PLAYING" true 1100 [])
     = (Examples.held_lane0, ("none" ++ Py.nl)%string)
  /\ ~ emits 0 (evaluate 0 Examples.held_lane0
                  (Examples.snapshot "PLAYING" true 1100 [])).2
  /\ (process_game_state 0 Examples.held_lane0
        (Examples.snapshot "PLAYING" true 1100 [Examples.tap 3 5000 None])).2
     = ("left" ++ Py.nl)%string.
Proof.
  split; [by vm_compute|]. split; [done|]. split.
  { eexists. split; [reflexivity|]. vm_compute. done. }
  split; [reflexivity|]. split; [|reflexivity].
  intros H. vm_compute in H. by apply elem_of_nil in H.
Qed.

End ServerSpec.

(** ** Line framing *)

Module Framing.

Lemma append_cons c (s t : string) :
  (String c s ++ t)%string = String c (s ++ t)%string.
Proof. reflexivity. Qed.

Lemma append_nil (t : string) : (EmptyString ++ t)%string = t.
Proof. reflexivity. Qed.

Lemma split_nonempty s : Py.split s <> [].
Proof.
  destruct s as [|c s]; simpl; [done|].
  destruct (Ascii.eqb c Py.newline); [done|]. by destruct (Py.split s).
Qed.

Lemma pop_last_cons x l :
  l <> [] -> Py.pop_last (x :: l) = (x :: (Py.pop_last l).1, (Py.pop_last l).2).
Proof. destruct l as [|y l]; [done|]. intros _. simpl. by destruct l; [|destruct (Py.pop_last _)]. Qed.

(** [lines = buffer.split('\n'); buffer = lines.pop()] *)
Lemma pop_last_split s : Py.pop_last (Py.split s) = Py.lines_of s.
Proof.
  induction s as [|c s IH]; [done|]. cbn [Py.split Py.lines_of].
  destruct (Ascii.eqb c Py.newline).
  - rewrite pop_last_cons by apply split_nonempty. rewrite IH.
    by destruct (Py.lines_of s).
  - pose proof (split_nonempty s) as Hne. rewrite <- IH.
    destruct (Py.split s) as [|p ps]; [done|].
    destruct ps as [|q ps]; [done|].
    rewrite (pop_last_cons (String c p)), (pop_last_cons p) by done.
    by destruct (Py.pop_last (q :: ps)).
Qed.

(** [while '\n' in buffer: line, buffer = buffer.split('\n', 1)] *)
Lemma split_once_none s :
  Py.split_once s = None -> Py.has_newline s = false /\ Py.lines_of s = ([], s).
Proof.
  induction s as [|c s IH]; [done|]. cbn [Py.split_once Py.has_newline Py.lines_of].
  destruct (Ascii.eqb c Py.newline); [done|].
  destruct (Py.split_once s) as [[l r]|]; [done|]. intros _.
  destruct IH as [-> ->]; done.
Qed.

Lemma split_once_some s line rest :
  Py.split_once s = Some (line, rest) ->
  Py.lines_of s = (line :: (Py.lines_of rest).1, (Py.lines_of rest).2)
  /\ (String.length rest < String.length s)%nat.
Proof.
  revert line. induction s as [|c s IH]; intros line; [done|].
  cbn [Py.split_once Py.lines_of String.length].
  destruct (Ascii.eqb c Py.newline).
  - intros [= <- <-]. split; [by destruct (Py.lines_of s)|lia].
  - destruct (Py.split_once s) as [[l r]|]; [|done]. intros [= <- <-].
    destruct (IH l eq_refl) as [-> Hlen]. split; [done|lia].
Qed.

Lemma has_newline_split_once s :
  Py.has_newline s = true <-> is_Some (Py.split_once s).
Proof.
  induction s as [|c s IH]; cbn [Py.has_newline Py.split_once].
  - split; [done|]. by intros [? ?].
  - destruct (Ascii.eqb c Py.newline); [by split; [eexists|]|].
    rewrite IH. destruct (Py.split_once s) as [[l r]|]; split; try done;
      try (by eexists); by intros [? ?].
Qed.

Lemma lines_of_no_newline s :
  Forall (fun l => Py.has_newline l = false) (Py.lines_of s).1
  /\ Py.has_newline (Py.lines_of s).2 = false.
Proof.
  induction s as [|c s [IH1 IH2]]; [by split; [constructor|]|].
  cbn [Py.lines_of]. destruct (Py.lines_of s) as [ls t]. simpl in *.
  destruct (Ascii.eqb c Py.newline) eqn:E; simpl.
  - split; [by constructor|done].
  - destruct ls as [|l ls]; simpl.
    + split; [constructor|]. by rewrite E.
    + apply Forall_cons in IH1 as [Hl Hls]. split; [|done].
      constructor; [|done]. simpl. by rewrite E.
Qed.

(** Nothing but the terminators is taken out of the text. *)
Lemma unlines_lines_of s :
  Py.unlines (Py.lines_of s).1 (Py.lines_of s).2 = s.
Proof.
  induction s as [|c s IH]; [done|]. cbn [Py.lines_of].
  destruct (Py.lines_of s) as [ls t]. simpl in IH.
  destruct (Ascii.eqb_spec c Py.newline) as [->|Hne]; simpl.
  - by rewrite IH.
  - destruct ls as [|l ls]; simpl in *; rewrite ?append_cons; by rewrite IH.
Qed.

(** The trailing incomplete line is carried over: the lines of a text
    received in two pieces are those of the whole text. *)
Lemma lines_of_app a b :
  Py.lines_of (a ++ b) =
  ((Py.lines_of a).1 ++ (Py.lines_of ((Py.lines_of a).2 ++ b)).1,
   (Py.lines_of ((Py.lines_of a).2 ++ b)).2).
Proof.
  induction a as [|c a IH].
  { rewrite append_nil. cbn [Py.lines_of fst snd]. rewrite append_nil.
    by destruct (Py.lines_of b). }
  rewrite append_cons. cbn [Py.lines_of]. rewrite IH.
  destruct (Py.lines_of a) as [la ta]. cbn [fst snd].
  destruct (Ascii.eqb c Py.newline) eqn:E; cbn [fst snd]; [done|].
  destruct la as [|l la]; cbn [fst snd app]; [|done].
  rewrite append_cons. cbn [Py.lines_of]. rewrite E.
  by destruct (Py.lines_of (ta ++ b)) as [[|l lb] tb].
Qed.

Lemma truthy_strip s : Py.truthy (Py.strip s) = negb (Py.blank s).
Proof.
  unfold Py.strip. induction s as [|c s IH]; [done|].
  cbn [Py.lstrip Py.blank]. destruct (Py.isspace c) eqn:Hc; [exact IH|].
  cbn [Py.rstrip andb negb]. rewrite Hc. by destruct (Py.rstrip s).
Qed.

(** The inner loop of the server reads the complete lines that are not
    blank, when its fuel is at least the length of the buffer. *)
Lemma read_lines_lines_of fuel s :
  (String.length s <= fuel)%nat ->
  Server.read_lines fuel s = (filter Py.kept (Py.lines_of s).1, (Py.lines_of s).2).
Proof.
  revert s. induction fuel as [|fuel IH]; intros s Hlen.
  - destruct s; [done|]. simpl in Hlen. lia.
  - cbn [Server.read_lines]. destruct (Py.split_once s) as [[line rest]|] eqn:E.
    + apply split_once_some in E as [-> Hlt]. rewrite IH by lia.
      cbn [fst snd]. rewrite filter_cons.
      case_decide as Hk; unfold Py.kept in Hk.
      * by rewrite Hk.
      * by destruct (Py.truthy (Py.strip line)).
    + apply split_once_none in E as [_ ->]. done.
Qed.

Lemma server_feed_lines_of buffer data :
  Server.feed buffer data =
  (filter Py.kept (Py.lines_of (buffer ++ data)).1, (Py.lines_of (buffer ++ data)).2).
Proof. unfold Server.feed. by apply read_lines_lines_of. Qed.

Lemma client_feed_lines_of buffer text :
  Client.feed buffer text =
  (filter Py.kept (Py.lines_of (buffer ++ text)).1, (Py.lines_of (buffer ++ text)).2).
Proof.
  unfold Client.feed. rewrite pop_last_split.
  by destruct (Py.lines_of (buffer ++ text)).
Qed.

Lemma append_assoc (a b c : string) :
  ((a ++ b) ++ c)%string = (a ++ (b ++ c))%string.
Proof. induction a as [|x a IH]; [done|]. by rewrite !append_cons, IH. Qed.

Lemma blank_kept line : Py.kept line <-> Py.blank line = false.
Proof. unfold Py.kept. rewrite truthy_strip. by destruct (Py.blank line). Qed.

(** *** The receive loop of the server *)

Section Loop.
Variable json_loads : string -> Server.loaded.
Import Server.

Lemma drain_lines_of fuel now st :
  (String.length (buffer st) <= fuel)%nat ->
  drain json_loads fuel now st =
  {| buffer := (Py.lines_of (buffer st)).2;
     active_holds :=
       (handle_lines json_loads now (active_holds st, sent st)
          (Py.lines_of (buffer st)).1).1;
     sent :=
       (handle_lines json_loads now (active_holds st, sent st)
          (Py.lines_of (buffer st)).1).2 |}.
Proof.
  revert st. induction fuel as [|fuel IH]; intros [buf holds out] Hlen;
    cbn [buffer active_holds sent] in *.
  - destruct buf; [done|]. simpl in Hlen. lia.
  - cbn [drain buffer active_holds sent].
    destruct (Py.split_once buf) as [[line rest]|] eqn:E.
    + apply split_once_some in E as [-> Hlt]. cbn [fst snd].
      unfold handle_lines at 1 2. cbn [foldl fst snd].
      destruct (process_line json_loads now holds line) as [holds' o].
      rewrite IH by (cbn [buffer]; lia). done.
    + apply split_once_none in E as [_ ->]. done.
Qed.

Lemma handle_lines_kept now acc lines :
  handle_lines json_loads now acc lines
  = handle_lines json_loads now acc (filter Py.kept lines).
Proof.
  revert acc. induction lines as [|line lines IH]; intros acc; [done|].
  rewrite filter_cons. case_decide as Hk; unfold Py.kept in Hk.
  - unfold handle_lines in *. cbn [foldl]. apply IH.
  - unfold handle_lines in *. cbn [foldl]. rewrite IH. f_equal.
    unfold process_line. destruct (Py.truthy (Py.strip line)); [done|].
    destruct acc. simpl. by rewrite app_nil_r.
Qed.

(** One non-empty read: the lines of the frame reader are handled in
    order and its carried-over buffer is kept. *)
Lemma on_recv_feed st now data :
  data <> EmptyString ->
  on_recv json_loads st (Received now data) =
  ({| buffer := (feed (buffer st) data).2;
      active_holds :=
        (handle_lines json_loads now (active_holds st, sent st)
           (feed (buffer st) data).1).1;
      sent :=
        (handle_lines json_loads now (active_holds st, sent st)
           (feed (buffer st) data).1).2 |},
   true).
Proof.
  intros Hd. destruct data as [|c data]; [done|]. cbn [on_recv Py.truthy].
  rewrite drain_lines_of by done. cbn [buffer active_holds sent].
  rewrite server_feed_lines_of. cbn [fst snd].
  by rewrite <- handle_lines_kept.
Qed.

(** The loop runs until no complete line is left in the buffer. *)
Lemma on_recv_buffer st now data :
  Py.has_newline (buffer (on_recv json_loads st (Received now data)).1) = false
  \/ data = EmptyString.
Proof.
  destruct data as [|c data]; [by right|left]. cbn [on_recv Py.truthy fst].
  rewrite drain_lines_of by done. cbn [buffer].
  apply lines_of_no_newline.
Qed.


End Loop.

Example C9_example_session :
  Server.serve example_loads
    {| Server.buffer := ""; Server.active_holds := ∅; Server.sent := [] |}
    [Server.Received 0 "oo"; Server.Timeout;
     Server.Received 0 ("ps" ++ Py.nl ++ "  " ++ Py.nl ++ "{}" ++ Py.nl ++ "{");
     Server.ConnectionReset; Server.Received 0 ("}" ++ Py.nl)]
  = ({| Server.buffer := "{"; Server.active_holds := ∅;
        Server.sent := [("none" ++ Py.nl)%string; ("none" ++ Py.nl)%string] |},
     false).
Proof. vm_compute. reflexivity. Qed.

(** C10. Both frame readers (server and client) give the same lines and
    the same carried-over buffer.  Fed ["a"], then ["bc\n"], then ["d\n"],
    they yield nothing, then ["abc"], then ["d"], and end with an empty
    buffer.  In general no yielded line and no carried-over buffer contains
    the terminator, no yielded line is empty or white space only, the
    yielded lines are the complete lines of buffer-plus-data that are not
    blank, nothing but terminators is taken out of the text, and feeding a
    text in two pieces yields the lines of feeding it at once. *)
Theorem C10_frame_reader :
  (Server.feed "" "a" = ([], "a")
   /\ Server.feed "a" ("bc" ++ Py.nl) = (["abc"], "")
   /\ Server.feed "" ("d" ++ Py.nl) = (["d"], ""))
  /\ (Client.feed "" "a" = ([], "a")
      /\ Client.feed "a" ("bc" ++ Py.nl) = (["abc"], "")
      /\ Client.feed "" ("d" ++ Py.nl) = (["d"], ""))
  /\ (forall buffer data, Client.feed buffer data = Server.feed buffer data)
  /\ (forall buffer data,
        Forall (fun line => Py.has_newline line = false /\ Py.blank line = false)
          (Server.feed buffer data).1
        /\ Py.has_newline (Server.feed buffer data).2 = false)
  /\ (forall buffer data,
        (Server.feed buffer data).1
        = filter (fun line => Py.blank line = false)
            (Py.lines_of (buffer ++ data)).1
        /\ Py.unlines (Py.lines_of (buffer ++ data)).1
             (Server.feed buffer data).2
           = (buffer ++ data)%string)
  /\ (forall buffer data1 data2,
        Server.feed buffer (data1 ++ data2)
        = ((Server.feed buffer data1).1
           ++ (Server.feed (Server.feed buffer data1).2 data2).1,
           (Server.feed (Server.feed buffer data1).2 data2).2)).
Proof.
  split; [by vm_compute|]. split; [by vm_compute|]. split; [|split; [|split]].
  - intros. by rewrite client_feed_lines_of, server_feed_lines_of.
  - intros. rewrite server_feed_lines_of. cbn [fst snd].
    destruct (lines_of_no_newline (buffer ++ data)) as [Hl Ht]. split; [|done].
    apply Forall_forall. intros line Hin.
    apply list_elem_of_filter in Hin as [Hk Hin]. split.
    + by apply (proj1 (Forall_forall _ _) Hl).
    + by apply blank_kept.
  - intros. rewrite server_feed_lines_of. cbn [fst snd]. split.
    + apply list_filter_iff. intros line. apply blank_kept.
    + apply unlines_lines_of.
  - intros. rewrite !server_feed_lines_of. cbn [fst snd].
    rewrite <- append_assoc, lines_of_app. cbn [fst snd].
    by rewrite filter_app.
Qed.

End Framing.

(** ** The deferred dispatcher *)

Module ClientSpec.
Import Client.

Lemma schedule_step_eq ct reg tasks n :
  schedule_step ct (reg, tasks) n =
  if schedulable ct reg n
  then (<[note_id n := true]> reg, tasks ++ [task_of ct n])
  else (reg, tasks).
Proof.
  unfold schedule_step, schedulable, in_horizon, time_until_hit, task_of, note_id.
  destruct (wanted n); [|done]. simpl.
  case_bool_decide; [done|]. simpl.
  by destruct (_ && _).
Qed.

Lemma lookup_cleanup ids (reg : gmap Z bool) id :
  cleanup ids reg !! id = if bool_decide (id ∈ ids) then reg !! id else None.
Proof.
  unfold cleanup. rewrite lookup_remove_where.
  destruct (reg !! id); by case_bool_decide.
Qed.

(** The loop over the notes, from any dictionary and task list. *)
Lemma fold_schedule ct notes :
  forall reg tasks, exists new,
    (foldl (schedule_step ct) (reg, tasks) notes).2 = tasks ++ new
    /\ (forall t, t ∈ new ->
          reg !! task_id t = None
          /\ exists n, n ∈ notes /\ t = task_of ct n
                       /\ wanted n = true /\ in_horizon ct n = true)
    /\ NoDup (task_id <$> new)
    /\ (forall id,
          (foldl (schedule_step ct) (reg, tasks) notes).1 !! id
          = if bool_decide (id ∈ task_id <$> new) then Some true else reg !! id)
    /\ (forall n, n ∈ notes -> wanted n = true -> in_horizon ct n = true ->
          is_Some ((foldl (schedule_step ct) (reg, tasks) notes).1 !! note_id n)).
Proof.
  induction notes as [|n ns IH]; intros reg tasks; cbn [foldl].
  { exists []. rewrite app_nil_r. split; [done|].
    split; [by intros t Ht; apply elem_of_nil in Ht|]. split; [constructor|].
    split; [done|]. by intros n Hn; apply elem_of_nil in Hn. }
  rewrite schedule_step_eq. destruct (schedulable ct reg n) eqn:Hs.
  - destruct (IH (<[note_id n := true]> reg) (tasks ++ [task_of ct n]))
      as (new & E & H1 & H2 & H3 & H4).
    unfold schedulable in Hs.
    apply andb_true_iff in Hs as [Hs Hh]. apply andb_true_iff in Hs as [Hw Hfree].
    apply negb_true_iff, bool_decide_eq_false in Hfree.
    assert (reg !! note_id n = None) as Hnone
      by (destruct (reg !! note_id n) eqn:X; [exfalso; apply Hfree; eauto | done]).
    exists (task_of ct n :: new). split; [by rewrite E, <- app_assoc|].
    split; [|split; [|split]].
    + intros t Ht. apply elem_of_cons in Ht as [->|Ht].
      * split; [done|]. exists n. split; [apply list_elem_of_here|done].
      * destruct (H1 t Ht) as [Hn (m & Hm & Hrest)].
        apply lookup_insert_None in Hn as [Hn _]. split; [done|].
        exists m. split; [by apply list_elem_of_further|done].
    + rewrite fmap_cons. constructor; [|done]. intros Hin.
      apply list_elem_of_fmap in Hin as (t & Ht & Hin).
      destruct (H1 t Hin) as [Hn _]. rewrite <- Ht in Hn. simpl in Hn.
      by rewrite lookup_insert_eq in Hn.
    + intros id. rewrite H3, fmap_cons. simpl.
      destruct (decide (id = note_id n)) as [->|Hne].
      * rewrite lookup_insert_eq.
        rewrite (bool_decide_eq_true_2 (note_id n ∈ note_id n :: _))
          by apply list_elem_of_here.
        by case_bool_decide.
      * rewrite lookup_insert_ne by done.
        rewrite (bool_decide_ext (id ∈ note_id n :: (task_id <$> new))
                   (id ∈ task_id <$> new)); [done|].
        rewrite elem_of_cons. tauto.
    + intros m Hm Hwm Hhm. apply elem_of_cons in Hm as [->|Hm]; [|by apply H4].
      rewrite H3. case_bool_decide; [by eexists|].
      rewrite lookup_insert_eq. by eexists.
  - destruct (IH reg tasks) as (new & E & H1 & H2 & H3 & H4).
    exists new. split; [done|]. split; [|split; [done|split; [done|]]].
    + intros t Ht. destruct (H1 t Ht) as [Hn (m & Hm & Hrest)].
      split; [done|]. exists m. split; [by apply list_elem_of_further|done].
    + intros m Hm Hwm Hhm. apply elem_of_cons in Hm as [->|Hm]; [|by apply H4].
      rewrite H3. case_bool_decide; [by eexists|].
      unfold schedulable in Hs. rewrite Hwm, Hhm in Hs. simpl in Hs.
      rewrite andb_true_r in Hs. apply negb_false_iff, bool_decide_eq_true in Hs.
      done.
Qed.

Section Message.
Variables (reg : gmap Z bool) (message : Message).

Let ct := default 0 (currentTime message).
Let ns := default [] (currentNotes message).

Lemma process_message_tasks :
  NoDup (task_id <$> (process_message reg message).2)
  /\ (forall t, t ∈ (process_message reg message).2 ->
        reg !! task_id t = None
        /\ (process_message reg message).1 !! task_id t = Some true
        /\ type message = Some "noteData"
        /\ exists n, n ∈ ns /\ t = task_of ct n
                     /\ wanted n = true /\ in_horizon ct n = true)
  /\ (type message = Some "noteData" ->
      forall n, n ∈ ns -> wanted n = true -> in_horizon ct n = true ->
                reg !! note_id n = None ->
                exists t, t ∈ (process_message reg message).2
                          /\ task_id t = note_id n).
Proof.
  unfold process_message. case_bool_decide as Hty.
  2:{ simpl. split; [constructor|].
      split; [by intros t Ht; apply elem_of_nil in Ht|done]. }
  fold ct ns.
  destruct (fold_schedule ct ns (cleanup (map note_id ns) reg) [])
    as (new & E & H1 & H2 & H3 & H4).
  rewrite E. simpl. split; [done|]. split.
  - intros t Ht. destruct (H1 t Ht) as [Hn (n & Hin & -> & Hw & Hh)].
    split; [|split; [|split; [done|by exists n]]].
    + rewrite lookup_cleanup in Hn. simpl in Hn.
      rewrite bool_decide_eq_true_2 in Hn; [done|].
      apply list_elem_of_In, in_map, list_elem_of_In, Hin.
    + rewrite H3. rewrite bool_decide_eq_true_2; [done|].
      apply list_elem_of_fmap. by exists (task_of ct n).
  - intros _ n Hin Hw Hh Hnone. specialize (H4 n Hin Hw Hh).
    rewrite H3 in H4. case_bool_decide as Hid.
    + apply list_elem_of_fmap in Hid as (t & Ht & Hin'). by exists t.
    + rewrite lookup_cleanup, Hnone in H4. destruct H4 as [? H4].
      by case_bool_decide.
Qed.

End Message.

Lemma note_id_injective n1 n2 :
  decimal_lane n1 -> decimal_lane n2 -> note_id n1 = note_id n2 ->
  identity n1 = identity n2.
Proof.
  unfold decimal_lane, note_id, identity. intros H1 H2 He.
  f_equal; lia.
Qed.

Lemma wanted_flags n :
  wanted n = true <->
  mayHit n = Some true /\ hasMissed n <> Some true /\ tooEarly n = Some false.
Proof.
  unfold wanted.
  destruct (mayHit n) as [[|]|], (hasMissed n) as [[|]|],
    (tooEarly n) as [[|]|]; simpl; split; try done; intros (? & ? & ?); done.
Qed.

Lemma in_horizon_bounds ct n :
  in_horizon ct n = true <-> 0 <= time_until_hit ct n <= 150.
Proof. unfold in_horizon. rewrite andb_true_iff, !Z.leb_le. done. Qed.

(** *** C6 *)

(** C6 (as amended). A task is started only for a note whose id,
    [strumTime * 10 + laneDirection], is not in [scheduled_notes], and the
    id is stored when the task is started: one message starts at most one
    task per id, and while an id stays in the registry a note with that id,
    in this or in a later message, starts no second task.  Notes with the
    same (strumTime, laneDirection) pair have the same id; notes with
    lanes in 0..9 (so the lanes 0..3) and different pairs have different
    ids, and when both are due and unregistered each gets its own task. *)
Theorem C6_one_task_per_registered_id reg message :
  NoDup (task_id <$> (process_message reg message).2)
  /\ (forall t, t ∈ (process_message reg message).2 ->
        reg !! task_id t = None
        /\ (process_message reg message).1 !! task_id t = Some true)
  /\ (forall n t, is_Some (reg !! note_id n) ->
        t ∈ (process_message reg message).2 -> task_id t <> note_id n)
  /\ (forall later t t',
        t ∈ (process_message reg message).2 ->
        t' ∈ (process_message (process_message reg message).1 later).2 ->
        task_id t' <> task_id t)
  /\ (forall n1 n2, identity n1 = identity n2 -> note_id n1 = note_id n2)
  /\ (forall n1 n2, decimal_lane n1 -> decimal_lane n2 ->
        identity n1 <> identity n2 -> note_id n1 <> note_id n2)
  /\ (forall n1 n2,
        type message = Some "noteData" ->
        n1 ∈ default [] (currentNotes message) ->
        n2 ∈ default [] (currentNotes message) ->
        decimal_lane n1 -> decimal_lane n2 -> identity n1 <> identity n2 ->
        schedulable (default 0 (currentTime message)) reg n1 = true ->
        schedulable (default 0 (currentTime message)) reg n2 = true ->
        exists t1 t2,
          t1 ∈ (process_message reg message).2
          /\ t2 ∈ (process_message reg message).2
          /\ task_id t1 = note_id n1 /\ task_id t2 = note_id n2 /\ t1 <> t2).
Proof.
  destruct (process_message_tasks reg message) as (Hnd & Hin & Hall).
  split; [done|]. split; [|split; [|split; [|split; [|split]]]].
  - intros t Ht. destruct (Hin t Ht) as (? & ? & _). done.
  - intros n t [v Hv] Ht Heq. destruct (Hin t Ht) as (Hn & _).
    rewrite Heq, Hv in Hn. done.
  - intros later t t' Ht Ht' Heq.
    destruct (Hin t Ht) as (_ & Hsome & _).
    destruct (process_message_tasks (process_message reg message).1 later)
      as (_ & Hin' & _).
    destruct (Hin' t' Ht') as (Hnone & _). rewrite Heq, Hsome in Hnone. done.
  - intros n1 n2 Heq. unfold identity in Heq. injection Heq as Hs Hd.
    unfold note_id. by rewrite Hs, Hd.
  - intros n1 n2 H1 H2 Hne Heq. by apply Hne, note_id_injective.
  - intros n1 n2 Hty Hn1 Hn2 Hv1 Hv2 Hne Hs1 Hs2.
    unfold schedulable in Hs1, Hs2.
    apply andb_true_iff in Hs1 as [Hs1 Hh1]. apply andb_true_iff in Hs1 as [Hw1 Hf1].
    apply andb_true_iff in Hs2 as [Hs2 Hh2]. apply andb_true_iff in Hs2 as [Hw2 Hf2].
    apply negb_true_iff, bool_decide_eq_false in Hf1.
    apply negb_true_iff, bool_decide_eq_false in Hf2.
    assert (reg !! note_id n1 = None) as Hr1
      by (destruct (reg !! note_id n1); [exfalso; apply Hf1; eauto|done]).
    assert (reg !! note_id n2 = None) as Hr2
      by (destruct (reg !! note_id n2); [exfalso; apply Hf2; eauto|done]).
    destruct (Hall Hty n1 Hn1 Hw1 Hh1 Hr1) as (t1 & Ht1 & Hid1).
    destruct (Hall Hty n2 Hn2 Hw2 Hh2 Hr2) as (t2 & Ht2 & Hid2).
    exists t1, t2. repeat (split; [done|]). intros ->.
    apply Hne, note_id_injective; [done..|]. by rewrite <- Hid1, <- Hid2.
Qed.

(** C6 as stated fails twice.  Two notes with different pairs, (1100, lane
    13) and (1101, lane 3), have the same id 11013, and only the first
    gets a task.  And one identity is scheduled twice: the note (1100,
    lane 2) gets a task, a message without it empties the registry, and
    the same note gets a second task. *)
Lemma C6_counterexample :
  identity (ClientExamples.note 13 1100 false)
  <> identity (ClientExamples.note 3 1101 false)
  /\ (process_message ∅
        (ClientExamples.noteData 1000
           [ClientExamples.note 13 1100 false;
            ClientExamples.note 3 1101 false])).2
     = [ {| task_id := 11013; task_direction := 13; task_delay := 70 |} ]
  /\ (process_message ∅
        (ClientExamples.noteData 1000 [ClientExamples.note 2 1100 false])).2
     = [ {| task_id := 11002; task_direction := 2; task_delay := 70 |} ]
  /\ (process_message
        (process_message
           (process_message ∅
              (ClientExamples.noteData 1000 [ClientExamples.note 2 1100 false])).1
           (ClientExamples.noteData 1010 [])).1
        (ClientExamples.noteData 1020 [ClientExamples.note 2 1100 false])).2
     = [ {| task_id := 11002; task_direction := 2; task_delay := 50 |} ].
Proof. vm_compute. split; [discriminate|done]. Qed.

Example C6_example_reobserved :
  process_message ∅
    (ClientExamples.noteData 1000
       [ClientExamples.note 0 1100 false; ClientExamples.note 1 1100 false;
        ClientExamples.note 0 1100 false])
  = ({[ 11000 := true; 11001 := true ]},
     [ {| task_id := 11000; task_direction := 0; task_delay := 70 |};
       {| task_id := 11001; task_direction := 1; task_delay := 70 |} ])
  /\ (process_message {[ 11000 := true; 11001 := true ]}
        (ClientExamples.noteData 1040
           [ClientExamples.note 0 1100 false; ClientExamples.note 1 1100 false])).2
     = [].
Proof. vm_compute. done. Qed.

Lemma C6_witness :
  exists t1 t2,
    t1 ∈ (process_message ∅
            (ClientExamples.noteData 1000
               [ClientExamples.note 0 1100 false;
                ClientExamples.note 1 1100 false])).2
    /\ t2 ∈ (process_message ∅
               (ClientExamples.noteData 1000
                  [ClientExamples.note 0 1100 false;
                   ClientExamples.note 1 1100 false])).2
    /\ task_id t1 = note_id (ClientExamples.note 0 1100 false)
    /\ task_id t2 = note_id (ClientExamples.note 1 1100 false)
    /\ t1 <> t2.
Proof.
  apply (proj2 (proj2 (proj2 (proj2 (proj2 (proj2
           (C6_one_task_per_registered_id ∅
              (ClientExamples.noteData 1000
                 [ClientExamples.note 0 1100 false;
                  ClientExamples.note 1 1100 false]))))))));
    try reflexivity.
  - apply list_elem_of_In. simpl. tauto.
  - apply list_elem_of_In. simpl. tauto.
  - unfold decimal_lane. simpl. lia.
  - unfold decimal_lane. simpl. lia.
  - vm_compute. discriminate.
Defined.

(** *** C7 *)

(** C7. Every task started while a message is processed belongs to a note
    of the message with [0 <= strumTime - currentTime <= 150]; its delay is
    [max(0, strumTime - currentTime - 30)], which is 70 when the
    difference is 100; the thread sleeps for that delay, sends the press,
    sleeps 60 ms and sends the release. *)
Theorem C7_horizon_delay_and_release reg message t :
  t ∈ (process_message reg message).2 ->
  exists n,
    n ∈ default [] (currentNotes message)
    /\ task_direction t = default 0 (direction n)
    /\ 0 <= default 0 (strumTime n) - default 0 (currentTime message) <= 150
    /\ task_delay t
       = Z.max 0 (default 0 (strumTime n) - default 0 (currentTime message) - 30)
    /\ (default 0 (strumTime n) - default 0 (currentTime message) = 100 ->
        task_delay t = 70)
    /\ hit_note (task_direction t) (task_delay t)
       = [ Sleep (Z.max 0 (default 0 (strumTime n)
                           - default 0 (currentTime message) - 30));
           Send {| keyCode := default 0 (direction n); pressed := true |};
           Sleep 60;
           Send {| keyCode := default 0 (direction n); pressed := false |} ].
Proof.
  intros Ht.
  destruct (process_message_tasks reg message) as (_ & Hin & _).
  destruct (Hin t Ht) as (_ & _ & _ & n & Hn & -> & _ & Hh).
  apply in_horizon_bounds in Hh. unfold time_until_hit in Hh.
  exists n. split; [done|]. split; [done|]. split; [done|].
  split; [done|]. split; [|done].
  intros H100. simpl. unfold time_until_hit. rewrite H100. done.
Qed.

Lemma C7_witness :
  exists n,
    n ∈ [ClientExamples.note 2 1100 false; ClientExamples.note 3 1151 false]
    /\ 2 = default 0 (direction n)
    /\ 0 <= default 0 (strumTime n) - 1000 <= 150
    /\ 70 = Z.max 0 (default 0 (strumTime n) - 1000 - 30)
    /\ (default 0 (strumTime n) - 1000 = 100 -> 70 = 70)
    /\ hit_note 2 70
       = [ Sleep (Z.max 0 (default 0 (strumTime n) - 1000 - 30));
           Send {| keyCode := default 0 (direction n); pressed := true |};
           Sleep 60;
           Send {| keyCode := default 0 (direction n); pressed := false |} ].
Proof.
  apply (C7_horizon_delay_and_release ∅
           (ClientExamples.noteData 1000
              [ClientExamples.note 2 1100 false;
               ClientExamples.note 3 1151 false])
           {| task_id := 11002; task_direction := 2; task_delay := 70 |}).
  vm_compute. apply list_elem_of_here.
Defined.

(** *** C8 *)

Lemma schedule_step_without_hasBeenHit ct st n :
  schedule_step ct st (without_hasBeenHit n) = schedule_step ct st n.
Proof. reflexivity. Qed.

Lemma process_message_without_hasBeenHit reg message :
  process_message reg (message_without_hasBeenHit message)
  = process_message reg message.
Proof.
  unfold process_message. cbn [type currentTime currentNotes message_without_hasBeenHit].
  case_bool_decide; [|done].
  destruct (currentNotes message) as [l|]; [|done]. cbn [fmap option_fmap option_map default from_option id].
  rewrite map_map. cbn [note_id without_hasBeenHit].
  change (map without_hasBeenHit l) with (without_hasBeenHit <$> l).
  rewrite foldl_fmap. done.
Qed.

(** C8 (as amended). A task is started only for a note whose [mayHit] is
    true, whose [hasMissed] is not true and whose [tooEarly] is present and
    false; the [hasBeenHit] key is not read: removing it from every note
    of a message changes neither the tasks started nor the dictionary. *)
Theorem C8_selected_by_mayHit_hasMissed_tooEarly reg message t :
  t ∈ (process_message reg message).2 ->
  (exists n,
     n ∈ default [] (currentNotes message)
     /\ task_id t = note_id n
     /\ mayHit n = Some true
     /\ hasMissed n <> Some true
     /\ tooEarly n = Some false)
  /\ process_message reg (message_without_hasBeenHit message)
     = process_message reg message.
Proof.
  intros Ht. split; [|apply process_message_without_hasBeenHit].
  destruct (process_message_tasks reg message) as (_ & Hin & _).
  destruct (Hin t Ht) as (_ & _ & _ & n & Hn & -> & Hw & _).
  apply wanted_flags in Hw as (? & ? & ?). by exists n.
Qed.

Lemma C8_witness :
  (exists n,
     n ∈ [ClientExamples.note 2 1100 false]
     /\ 11002 = note_id n
     /\ mayHit n = Some true
     /\ hasMissed n <> Some true
     /\ tooEarly n = Some false)
  /\ process_message ∅
       (message_without_hasBeenHit
          (ClientExamples.noteData 1000 [ClientExamples.note 2 1100 false]))
     = process_message ∅
         (ClientExamples.noteData 1000 [ClientExamples.note 2 1100 false]).
Proof.
  apply (C8_selected_by_mayHit_hasMissed_tooEarly ∅
           (ClientExamples.noteData 1000 [ClientExamples.note 2 1100 false])
           {| task_id := 11002; task_direction := 2; task_delay := 70 |}).
  vm_compute. apply list_elem_of_here.
Defined.

(** C8 as stated fails: a note whose [hasBeenHit] is true, 100 ms ahead,
    is scheduled like any other. *)
Lemma C8_counterexample :
  hasBeenHit (ClientExamples.note 2 1100 true) = Some true
  /\ process_message ∅
       (ClientExamples.noteData 1000 [ClientExamples.note 2 1100 true])
     = ({[ note_id (ClientExamples.note 2 1100 true) := true ]},
        [ task_of 1000 (ClientExamples.note 2 1100 true) ])
  /\ task_of 1000 (ClientExamples.note 2 1100 true)
     = {| task_id := 11002; task_direction := 2; task_delay := 70 |}.
Proof. vm_compute. done. Qed.

End ClientSpec.

(** ** More of the server: responses, replays, the tracker over a session *)

Module ServerMore.
Import Server ServerSpec Tracker.

Local Ltac sublist_tac :=
  repeat first [apply sublist_nil | apply sublist_skip | apply sublist_cons].

(** *** The response line *)

Lemma response_of_flags (b0 b1 b2 b3 : bool) :
  let l := (if b0 then ["left"] else []) ++ (if b1 then ["down"] else [])
           ++ (if b2 then ["up"] else []) ++ (if b3 then ["right"] else []) in
  l `sublist_of` ["left"; "down"; "up"; "right"]
  /\ format_actions l = (if decide (l = []) then "none" else Py.join "," l)
  /\ Py.lines_of (format_actions l ++ Py.nl) = ([format_actions l], "").
Proof.
  destruct b0, b1, b2, b3; cbn zeta; (split; [simpl; sublist_tac|]);
    split; by vm_compute.
Qed.

Lemma response_shape now holds gs :
  exists l,
    l `sublist_of` ["left"; "down"; "up"; "right"]
    /\ (process_game_state now holds gs).2
       = ((if decide (l = []) then "none" else Py.join "," l) ++ Py.nl)%string
    /\ Py.lines_of (process_game_state now holds gs).2
       = ([if decide (l = []) then "none" else Py.join "," l], "").
Proof.
  unfold process_game_state.
  destruct (bool_decide (mainState gs = Some "PLAYING")
            && default false (isPlaying gs)).
  2:{ exists []. split; [sublist_tac|]. split; by vm_compute. }
  set (ns := default [] (notes gs)). set (t := default now (timestamp gs)).
  destruct (analyze_notes now holds ns (Some t)) as [h a] eqn:E.
  assert (a = (analyze_notes now holds ns (Some t)).2) as -> by by rewrite E.
  cbn [snd]. destruct (decide (ns = [])) as [Hempty|Hne].
  { rewrite Hempty, analyze_notes_empty. exists []. split; [sublist_tac|].
    split; by vm_compute. }
  rewrite analyze_notes_actions by done. cbn [map concat]. rewrite app_nil_r.
  set (b0 := lane_fires _ _ _ 0). set (b1 := lane_fires _ _ _ 1).
  set (b2 := lane_fires _ _ _ 2). set (b3 := lane_fires _ _ _ 3).
  destruct (response_of_flags b0 b1 b2 b3) as (Hs & Hf & Hl). cbn zeta in *.
  cbn [get_key_for_direction].
  eexists. split; [exact Hs|]. by rewrite <- Hf.
Qed.

(** X1. Whatever the snapshot and the tracker, the response is one line:
    ["none"], or the names of a selection of the four lanes in the order
    left, down, up, right, separated by commas and without repetition,
    followed by the terminator. *)
Theorem X1_response_is_ordered_lane_list now holds gs :
  exists l,
    l `sublist_of` ["left"; "down"; "up"; "right"]
    /\ (process_game_state now holds gs).2
       = ((if decide (l = []) then "none" else Py.join "," l) ++ Py.nl)%string
    /\ Py.lines_of (process_game_state now holds gs).2
       = ([if decide (l = []) then "none" else Py.join "," l], "").
Proof. apply response_shape. Qed.

(** *** [format_actions] on any list *)

Lemma unique_fold (l : list string) :
  forall u, NoDup u ->
  exists k,
    foldl (fun u a => if bool_decide (a ∈ u) then u else u ++ [a]) u l = u ++ k
    /\ NoDup (u ++ k)
    /\ k `sublist_of` l
    /\ (forall a, a ∈ k -> a ∈ l)
    /\ (forall a, a ∈ l -> a ∈ u ++ k)
    /\ (NoDup (u ++ l) -> k = l).
Proof.
  induction l as [|a l IH]; intros u Hu; cbn [foldl].
  { exists []. rewrite app_nil_r. split; [done|]. split; [done|].
    split; [sublist_tac|]. split; [done|]. split; [|done].
    intros a Ha. by apply elem_of_nil in Ha. }
  case_bool_decide as Ha.
  - destruct (IH u Hu) as (k & E & Hnd & Hsub & Hin & Hall & Hid).
    exists k. split; [done|]. split; [done|]. split; [by apply sublist_cons|].
    split; [by intros b Hb; apply list_elem_of_further, Hin|]. split.
    + intros b Hb. apply elem_of_cons in Hb as [->|Hb]; [|by apply Hall].
      apply elem_of_app. by left.
    + intros Hnd'. exfalso. apply NoDup_app in Hnd' as (_ & Hdis & _).
      apply (Hdis a Ha). apply list_elem_of_here.
  - assert (NoDup (u ++ [a])) as Hu'.
    { apply NoDup_app. split; [done|]. split; [|apply NoDup_singleton].
      intros b Hb Hb'. apply list_elem_of_singleton in Hb'. by subst. }
    destruct (IH (u ++ [a]) Hu') as (k & E & Hnd & Hsub & Hin & Hall & Hid).
    exists (a :: k). rewrite E, <- !app_assoc. cbn [app].
    split; [done|]. split; [by rewrite <- app_assoc in Hnd|].
    split; [by apply sublist_skip|]. split; [|split].
    + intros b Hb. apply elem_of_cons in Hb as [->|Hb];
        [apply list_elem_of_here | by apply list_elem_of_further, Hin].
    + intros b Hb. apply elem_of_cons in Hb as [->|Hb].
      * apply elem_of_app. right. apply list_elem_of_here.
      * specialize (Hall b Hb). by rewrite <- app_assoc in Hall.
    + intros Hnd'. f_equal. apply Hid. by rewrite <- app_assoc.
Qed.

Lemma unique_fold_first (l : list string) :
  forall u,
    foldl (fun u a => if bool_decide (a ∈ u) then u else u ++ [a]) u l
    = u ++ filter (fun b => b ∉ u) (first_occurrences l).
Proof.
  induction l as [|a l IH]; intros u; cbn [foldl first_occurrences].
  { by rewrite filter_nil, app_nil_r. }
  rewrite IH, filter_cons, list_filter_filter. case_bool_decide as Ha.
  - rewrite decide_False by (intros H; exact (H Ha)). f_equal.
    apply list_filter_iff. intros b. split; [|by intros [? _]].
    intros Hb. split; [done|]. by intros ->.
  - rewrite decide_True by done. rewrite <- app_assoc. cbn [app]. do 2 f_equal.
    apply list_filter_iff. intros b. rewrite not_elem_of_app.
    by rewrite list_elem_of_singleton.
Qed.

(** X2. The list [format_actions] joins is the action list with every
    element kept at the place of its first occurrence and its later
    occurrences dropped: it starts with the first action, followed by the
    same treatment of the rest without that action.  So it has no
    repetition, has the elements of the action list, is a sub-sequence of
    it, is unchanged by a second pass and is the action list itself when
    that has no repetition; an empty action list is formatted as
    ["none"]. *)
Theorem X2_unique_actions_first_occurrences (actions : list string) :
  unique_actions actions = first_occurrences actions
  /\ (forall a rest,
        unique_actions (a :: rest)
        = a :: filter (fun b => b <> a) (unique_actions rest))
  /\ NoDup (unique_actions actions)
  /\ (forall a, a ∈ unique_actions actions <-> a ∈ actions)
  /\ unique_actions actions `sublist_of` actions
  /\ unique_actions (unique_actions actions) = unique_actions actions
  /\ (NoDup actions -> unique_actions actions = actions)
  /\ (format_actions actions
      = if decide (actions = []) then "none"
        else Py.join "," (unique_actions actions)).
Proof.
  assert (forall l, unique_actions l = first_occurrences l) as Hfirst.
  { intros l. unfold unique_actions. rewrite unique_fold_first. cbn [app].
    induction (first_occurrences l) as [|b k IHk]; [done|].
    rewrite filter_cons, decide_True by apply not_elem_of_nil.
    by rewrite IHk. }
  split; [apply Hfirst|]. split; [by intros a rest; rewrite !Hfirst|].
  unfold unique_actions.
  destruct (unique_fold actions [] NoDup_nil_2)
    as (k & E & Hnd & Hsub & Hin & Hall & Hid).
  rewrite E. cbn [app] in *.
  split; [done|]. split; [by split; auto|]. split; [done|]. split; [|split].
  - destruct (unique_fold k [] NoDup_nil_2) as (k' & E' & _ & _ & _ & _ & Hid').
    rewrite E'. cbn [app]. by apply Hid'.
  - done.
  - unfold format_actions, unique_actions. rewrite E. by destruct actions.
Qed.

Example X2_example_first_occurrence_kept :
  unique_actions ["a"; "b"; "a"; "c"; "b"] = ["a"; "b"; "c"].
Proof. by vm_compute. Qed.

(** *** Replaying a snapshot *)

Lemma bool_decide_is_Some {A} (o : option A) :
  bool_decide (is_Some o) = match o with Some _ => true | None => false end.
Proof.
  destruct o; [by apply bool_decide_eq_true_2|].
  apply bool_decide_eq_false_2. by intros [? ?].
Qed.

Lemma lane_hold_fix ts ns (h h' : gmap Z hold_data) d :
  h' !! d = lane_hold ts ns h d -> lane_hold ts ns h' d = lane_hold ts ns h d.
Proof.
  intros E. unfold lane_hold at 1. rewrite E.
  destruct (lane_hold ts ns h d) as [x|] eqn:Hx; [done|].
  unfold lane_hold in Hx. destruct (h !! d); [done|]. exact Hx.
Qed.

Lemma lane_fires_fix ts ns (h h' : gmap Z hold_data) d :
  h' !! d = lane_hold ts ns h d -> lane_fires ts ns h' d = lane_fires ts ns h d.
Proof.
  intros E. unfold lane_fires. rewrite E. unfold lane_hold.
  rewrite !bool_decide_is_Some.
  destruct (h !! d) as [x|]; [done|].
  destruct (accepted d ts ns) as [b|]; [|done].
  destruct (bool_decide (get_key_for_direction d <> "none")); [|done].
  by destruct (default false (isHoldNote b)).
Qed.

Lemma lane_hold_live ts ns (h : gmap Z hold_data) d x :
  (forall y, h !! d = Some y -> ts < end_time y) ->
  lane_hold ts ns h d = Some x -> ts < end_time x.
Proof.
  intros Hlive. unfold lane_hold. destruct (h !! d) as [y|].
  - intros [= <-]. by apply Hlive.
  - destruct (accepted d ts ns) as [b|]; [|done].
    destruct (_ && _); [|done]. intros [= <-]. simpl. lia.
Qed.

Lemma release_expired_live ts (h : gmap Z hold_data) d y :
  release_expired ts h !! d = Some y -> ts < end_time y.
Proof.
  rewrite lookup_release_expired. destruct (h !! d) as [x|]; [|done].
  destruct (Z.leb_spec (end_time x) ts); [done|]. by intros [= <-].
Qed.

Lemma analyze_notes_live now holds ns t d x :
  ns <> [] ->
  (analyze_notes now holds ns t).1 !! d = Some x -> default now t < end_time x.
Proof.
  intros Hne. destruct (decide (d ∈ [0; 1; 2; 3])) as [Hd|Hd].
  - rewrite analyze_notes_holds_lane by done. apply lane_hold_live.
    intros y. apply release_expired_live.
  - rewrite analyze_notes_holds_other by done. apply release_expired_live.
Qed.

Lemma release_expired_analyze now holds ns t d :
  ns <> [] ->
  release_expired (default now t) (analyze_notes now holds ns t).1 !! d
  = (analyze_notes now holds ns t).1 !! d.
Proof.
  intros Hne. rewrite lookup_release_expired.
  destruct ((analyze_notes now holds ns t).1 !! d) as [x|] eqn:E; [|done].
  apply analyze_notes_live in E; [|done].
  destruct (Z.leb_spec (end_time x) (default now t)); [lia|done].
Qed.

(** X3. Evaluating the same notes at the same time a second time, on the
    tracker the first evaluation left, gives the same actions and leaves
    the tracker as it is: a snapshot received twice in a row is answered
    twice alike. *)
Theorem X3_replay_is_idempotent now holds ns t :
  analyze_notes now (analyze_notes now holds ns t).1 ns t
  = analyze_notes now holds ns t.
Proof.
  destruct (decide (ns = [])) as [->|Hne]; [done|].
  set (r := analyze_notes now holds ns t).
  rewrite (surjective_pairing (analyze_notes now r.1 ns t)).
  rewrite (surjective_pairing r) at 3. f_equal.
  - apply map_eq. intros d. destruct (decide (d ∈ [0; 1; 2; 3])) as [Hd|Hd].
    + rewrite analyze_notes_holds_lane by done.
      rewrite (lane_hold_ext _ _ r.1) by (by apply release_expired_analyze).
      unfold r at 2. rewrite analyze_notes_holds_lane by done.
      apply lane_hold_fix. unfold r. by rewrite analyze_notes_holds_lane.
    + rewrite analyze_notes_holds_other by done.
      by apply release_expired_analyze.
  - unfold r at 2. rewrite !analyze_notes_actions by done. f_equal.
    apply map_ext_in. intros d Hd. apply list_elem_of_In in Hd.
    rewrite (lane_fires_ext _ _ r.1) by (by apply release_expired_analyze).
    rewrite (lane_fires_fix _ _ (release_expired (default now t) holds)); [done|].
    unfold r. by rewrite analyze_notes_holds_lane.
Qed.

(** *** The hit window against the acceptance threshold *)

Lemma accepted_is_Some L ts ns :
  is_Some (accepted L ts ns)
  <-> exists n, n ∈ ns /\ selectable L n = true
                /\ Z.abs (time_difference ts n) <= 80.
Proof.
  split.
  - intros [b Hb]. apply accepted_chosen in Hb as [(i & Hi & _) Hk].
    apply list_elem_of_lookup_2 in Hi. unfold candidates in Hi.
    apply list_elem_of_filter in Hi as [Hc Hin].
    apply selectable_candidate in Hc. apply andb_true_iff in Hc as [Hs _].
    exists b. by rewrite time_difference_spec.
  - intros (n & Hin & Hs & Hk).
    assert (is_candidate L ts n) as Hc.
    { apply selectable_candidate. rewrite Hs. simpl.
      unfold in_hit_window, HIT_WINDOW_MS.
      apply andb_true_iff. rewrite !Z.leb_le. lia. }
    assert (n ∈ candidates L ts ns) as Hcs
      by (by apply list_elem_of_filter).
    apply list_elem_of_lookup_1 in Hcs as [j Hj].
    rewrite accepted_head, hitable_notes_candidates.
    set (g := fun m : Note => (m, Z.abs (timeDifference ts m))).
    pose proof (head_sort_exists (map g (candidates L ts ns))) as Hh.
    destruct (head (sort_by_diff (map g (candidates L ts ns)))) as [[b k]|].
    + destruct Hh as (i & _ & Hmin & _).
      assert (map g (candidates L ts ns) !! j = Some (g n)) as Hgj.
      { change (map g ?l) with (g <$> l). by rewrite list_lookup_fmap, Hj. }
      specialize (Hmin j (g n) Hgj). simpl in Hmin.
      rewrite <- time_difference_spec in Hmin.
      destruct (Z.leb_spec k 80); [by eexists|lia].
    + destruct (candidates L ts ns); [by destruct j|done].
Qed.

(** X4. A lane of 0..3 without a live hold gets its key in the actions
    exactly when some note of that lane that is not hit, not missed and
    hittable lies within 80 ms of its reference time: the 160 ms window of
    line 107 never decides a press. *)
Theorem X4_press_iff_some_note_within_80 now holds ns t L :
  L ∈ [0; 1; 2; 3] ->
  ~ alive (default now t) holds L ->
  emits L (analyze_notes now holds ns t).2
  <-> exists n, n ∈ ns /\ selectable L n = true
                /\ Z.abs (time_difference (default now t) n) <= 80.
Proof.
  intros HL Hfree. destruct (decide (ns = [])) as [->|Hne].
  { split.
    - intros H. by apply elem_of_nil in H.
    - intros (n & Hn & _). by apply elem_of_nil in Hn. }
  rewrite analyze_notes_emits by done.
  apply release_expired_free in Hfree. unfold lane_fires. rewrite Hfree.
  rewrite (bool_decide_eq_false_2 (is_Some None)) by (by intros [? ?]).
  rewrite (bool_decide_eq_true_2 _ (key_of_lane L HL)).
  rewrite orb_false_l, andb_true_r, bool_decide_eq_true.
  apply accepted_is_Some.
Qed.

Lemma X4_witness :
  emits 1
    (analyze_notes 0 Examples.held_lane0
       [Examples.tap 1 1290 None; Examples.tap 1 1340 None] (Some 1300)).2
  <-> exists n,
        n ∈ [Examples.tap 1 1290 None; Examples.tap 1 1340 None]
        /\ selectable 1 n = true
        /\ Z.abs (time_difference 1300 n) <= 80.
Proof.
  apply (X4_press_iff_some_note_within_80 0 Examples.held_lane0
           [Examples.tap 1 1290 None; Examples.tap 1 1340 None] (Some 1300) 1).
  - apply list_elem_of_In. simpl. tauto.
  - intros (h & Hh & _). vm_compute in Hh. discriminate Hh.
Defined.

(** *** The tracker over a session *)

Lemma analyze_notes_holds_ok now holds ns t :
  holds_ok holds -> holds_ok (analyze_notes now holds ns t).1.
Proof.
  intros Hok d h Hh. destruct (decide (ns = [])) as [->|Hne]; [by apply Hok|].
  destruct (decide (d ∈ [0; 1; 2; 3])) as [Hd|Hd].
  - rewrite analyze_notes_holds_lane in Hh by done. unfold lane_hold in Hh.
    destruct (release_expired _ holds !! d) as [y|] eqn:E.
    + injection Hh as ->. rewrite lookup_release_expired in E.
      destruct (holds !! d) as [x|] eqn:Hx; [|done].
      destruct (end_time x <=? default now t); [done|]. injection E as ->.
      by apply Hok.
    + destruct (accepted d _ ns) as [b|] eqn:Hacc; [|done].
      destruct (bool_decide _) eqn:Hk; [|done]. simpl in Hh.
      destruct (isHoldNote b) as [[|]|] eqn:Hhold; try done.
      injection Hh as <-. apply accepted_chosen in Hacc as [(i & Hi & _) _].
      apply list_elem_of_lookup_2 in Hi. unfold candidates in Hi.
      apply list_elem_of_filter in Hi as [(Hdir & _) _].
      split; [done|]. split; [done|]. split; [done|]. done.
  - rewrite analyze_notes_holds_other in Hh by done.
    rewrite lookup_release_expired in Hh.
    destruct (holds !! d) as [x|] eqn:Hx; [|done].
    destruct (end_time x <=? default now t); [done|]. injection Hh as ->.
    by apply Hok.
Qed.

Lemma process_game_state_holds_ok now holds gs :
  holds_ok holds -> holds_ok (process_game_state now holds gs).1.
Proof.
  intros Hok. unfold process_game_state. destruct (_ && _).
  - pose proof (analyze_notes_holds_ok now holds (default [] (notes gs))
                  (Some (default now (timestamp gs))) Hok) as H.
    by destruct (analyze_notes _ _ _ _).
  - intros d h Hh. cbn [fst] in Hh. by rewrite lookup_empty in Hh.
Qed.

Lemma key_is_lane d : get_key_for_direction d <> "none" -> d ∈ [0; 1; 2; 3].
Proof.
  intros Hk. destruct d as [|[[p|p|]|[p|p|]|]|p]; simpl in Hk; try done;
    by repeat first [apply list_elem_of_here | apply list_elem_of_further].
Qed.

Lemma lane_step_holds_ok ts ns h a d :
  holds_ok h -> holds_ok (lane_step ts ns (h, a) d).1.
Proof.
  intros Hok. rewrite lane_step_eq. case_bool_decide; [done|].
  destruct (accepted d ts ns) as [b|] eqn:Hacc; [|done].
  case_bool_decide as Hk; [|done]. cbn [fst].
  destruct (isHoldNote b) as [[|]|] eqn:Hhold; try done. cbn [default from_option id].
  intros d' h' Hh'. destruct (decide (d' = d)) as [->|Hne].
  - rewrite lookup_insert_eq in Hh'. injection Hh' as <-.
    apply accepted_chosen in Hacc as [(i & Hi & _) _].
    apply list_elem_of_lookup_2 in Hi. unfold candidates in Hi.
    apply list_elem_of_filter in Hi as [(Hdir & _) _].
    split; [by apply key_is_lane|]. done.
  - rewrite lookup_insert_ne in Hh' by done. by apply Hok.
Qed.

Lemma fold_lanes_holds_ok ts ns ds :
  forall h a, holds_ok h -> holds_ok (foldl (lane_step ts ns) (h, a) ds).1.
Proof.
  induction ds as [|d ds IH]; intros h a Hok; [done|]. cbn [foldl].
  pose proof (lane_step_holds_ok ts ns h a d Hok) as H.
  destruct (lane_step ts ns (h, a) d) as [h1 a1]. by apply IH.
Qed.

Lemma release_expired_holds_ok ts holds :
  holds_ok holds -> holds_ok (release_expired ts holds).
Proof.
  intros Hok d h. rewrite lookup_release_expired.
  destruct (holds !! d) as [x|] eqn:Hx; [|done].
  destruct (end_time x <=? ts); [done|]. intros [= <-]. by apply Hok.
Qed.

Lemma raised_in_lane_holds_ok now holds gs k :
  holds_ok holds -> holds_ok (raised_in_lane now holds gs k).
Proof.
  intros Hok. unfold raised_in_lane. destruct (_ && _).
  - destruct (default [] (notes gs)) as [|n ns]; [done|].
    by apply fold_lanes_holds_ok, release_expired_holds_ok.
  - intros d h Hh. by rewrite lookup_empty in Hh.
Qed.

Lemma holds_ok_size (holds : gmap Z hold_data) :
  holds_ok holds -> (size holds <= 4)%nat.
Proof.
  intros Hok. rewrite <- size_dom.
  assert (dom holds ⊆ (list_to_set [0; 1; 2; 3] : gset Z)) as Hsub.
  { intros d Hd. apply elem_of_dom in Hd as [h Hh].
    apply elem_of_list_to_set. by apply (Hok d h). }
  apply subseteq_size in Hsub. etrans; [exact Hsub|]. by vm_compute.
Qed.

Section Session.
Variable json_loads : string -> loaded.

Lemma process_line_holds_ok now holds line :
  holds_ok holds -> holds_ok (process_line json_loads now holds line).1.
Proof.
  intros Hok. unfold process_line. destruct (Py.truthy _); [|done].
  destruct (json_loads _) as [| |gs|gs k]; [done..| |].
  - pose proof (process_game_state_holds_ok now holds gs Hok) as H.
    by destruct (process_game_state now holds gs).
  - by apply raised_in_lane_holds_ok.
Qed.

Lemma handle_lines_holds_ok now acc lines :
  holds_ok acc.1 -> holds_ok (handle_lines json_loads now acc lines).1.
Proof.
  revert acc. induction lines as [|line lines IH]; intros acc Hok; [done|].
  unfold handle_lines in *. cbn [foldl]. apply IH.
  pose proof (process_line_holds_ok now acc.1 line Hok) as H.
  by destruct (process_line json_loads now acc.1 line).
Qed.

Lemma on_recv_holds_ok st r :
  holds_ok (active_holds st) ->
  holds_ok (active_holds (on_recv json_loads st r).1).
Proof.
  intros Hok. destruct r as [now data| | |]; try done.
  destruct (decide (data = EmptyString)) as [->|Hd]; [done|].
  rewrite Framing.on_recv_feed by done. cbn [fst active_holds].
  by apply handle_lines_holds_ok.
Qed.

(** X5. Over a whole session, from a tracker whose entries are well
    formed (the empty one is), every entry of [active_holds] stays under
    one of the keys 0..3, holds a hold note of that lane and ends
    [max(length, 200)] after its start; so there are never more than four
    entries. *)
Theorem X5_session_keeps_tracker_well_formed st events :
  holds_ok (active_holds st) ->
  holds_ok (active_holds (serve json_loads st events).1)
  /\ (size (active_holds (serve json_loads st events).1) <= 4)%nat.
Proof.
  intros Hok.
  assert (holds_ok (active_holds (serve json_loads st events).1)) as H.
  { revert st Hok. induction events as [|r events IH]; intros st Hok; [done|].
    cbn [serve]. pose proof (on_recv_holds_ok st r Hok) as H1.
    destruct (on_recv json_loads st r) as [st' running].
    destruct running; [by apply IH|done]. }
  split; [done|]. by apply holds_ok_size.
Qed.

End Session.

Lemma X5_witness :
  holds_ok
    (active_holds
       (serve example_loads
          {| buffer := ""; active_holds := ∅; sent := [] |}
          [Received 0 ("{}" ++ Py.nl); Timeout]).1)
  /\ (size
        (active_holds
           (serve example_loads
              {| buffer := ""; active_holds := ∅; sent := [] |}
              [Received 0 ("{}" ++ Py.nl); Timeout]).1) <= 4)%nat.
Proof.
  apply (X5_session_keeps_tracker_well_formed example_loads
           {| buffer := ""; active_holds := ∅; sent := [] |}
           [Received 0 ("{}" ++ Py.nl); Timeout]).
  intros d h Hh. vm_compute in Hh. discriminate Hh.
Defined.

(** *** A hold that has run out *)

Lemma release_expired_delete ts (holds : gmap Z hold_data) L h :
  holds !! L = Some h -> end_time h <= ts ->
  release_expired ts (delete L holds) = release_expired ts holds.
Proof.
  intros Hh Hexp. apply map_eq. intros d. rewrite !lookup_release_expired.
  destruct (decide (d = L)) as [->|Hne].
  - rewrite lookup_delete_eq, Hh.
    by destruct (Z.leb_spec (end_time h) ts); [|lia].
  - by rewrite lookup_delete_ne.
Qed.

(** X6. While a hold is live ([t < end_time]) a cycle with notes keeps
    its entry and reports the lane, whatever the notes are; once
    [t >= end_time] the cycle is evaluated exactly as if the entry had
    never been there, so the lane can be pressed, or armed with a new
    hold, in the very cycle in which the old hold runs out. *)
Theorem X6_hold_lifecycle now holds ns t L h :
  ns <> [] ->
  L ∈ [0; 1; 2; 3] ->
  holds !! L = Some h ->
  (default now t < end_time h ->
   (analyze_notes now holds ns t).1 !! L = Some h
   /\ emits L (analyze_notes now holds ns t).2)
  /\ (end_time h <= default now t ->
      analyze_notes now holds ns t = analyze_notes now (delete L holds) ns t).
Proof.
  intros Hne HL Hh. split.
  - intros Hlive. by apply tracker_keeps_live.
  - intros Hexp. rewrite !analyze_notes_nonempty by done.
    by rewrite (release_expired_delete _ _ _ _ Hh Hexp).
Qed.

Lemma X6_witness :
  (1300 < end_time (new_hold 1000 (Examples.hold 0 1000 None 50)) ->
   (analyze_notes 0 Examples.held_lane0
      [Examples.hold 0 1300 None 400] (Some 1300)).1 !! 0
   = Some (new_hold 1000 (Examples.hold 0 1000 None 50))
   /\ emits 0 (analyze_notes 0 Examples.held_lane0
                 [Examples.hold 0 1300 None 400] (Some 1300)).2)
  /\ (end_time (new_hold 1000 (Examples.hold 0 1000 None 50)) <= 1300 ->
      analyze_notes 0 Examples.held_lane0
        [Examples.hold 0 1300 None 400] (Some 1300)
      = analyze_notes 0 (delete 0 Examples.held_lane0)
          [Examples.hold 0 1300 None 400] (Some 1300)).
Proof.
  apply (X6_hold_lifecycle 0 Examples.held_lane0
           [Examples.hold 0 1300 None 400] (Some 1300) 0
           (new_hold 1000 (Examples.hold 0 1000 None 50))).
  - discriminate.
  - apply list_elem_of_In. simpl. tauto.
  - reflexivity.
Defined.

Example X6_example_rearmed_in_the_same_cycle :
  (analyze_notes 0 Examples.held_lane0
     [Examples.hold 0 1300 None 400] (Some 1300))
  = ({[ 0 := new_hold 1300 (Examples.hold 0 1300 None 400) ]}, ["left"]).
Proof. by vm_compute. Qed.

(** *** Requests and responses *)

Section Pairing.
Variable json_loads : string -> loaded.

Lemma process_line_out now holds line :
  exists out,
    (process_line json_loads now holds line).2 = out
    /\ length out = (if Py.truthy (Py.strip line) then 1 else 0)%nat
    /\ Forall one_line out.
Proof.
  unfold process_line. destruct (Py.truthy _); [|by exists []].
  destruct (json_loads _) as [| |gs|gs k].
  - eexists. split; [done|]. split; [done|]. constructor; [|done].
    exists "none". by vm_compute.
  - eexists. split; [done|]. split; [done|]. constructor; [|done].
    exists "none". by vm_compute.
  - destruct (response_shape now holds gs) as (l & _ & _ & Hl).
    destruct (process_game_state now holds gs) as [h' response].
    eexists. split; [done|]. split; [done|]. constructor; [|done].
    eexists. exact Hl.
  - eexists. split; [done|]. split; [done|]. constructor; [|done].
    exists "none". by vm_compute.
Qed.

Lemma handle_lines_out now acc lines :
  exists new,
    (handle_lines json_loads now acc lines).2 = acc.2 ++ new
    /\ length new = length (filter Py.kept lines)
    /\ Forall one_line new.
Proof.
  revert acc. induction lines as [|line lines IH]; intros acc.
  { exists []. by rewrite app_nil_r. }
  unfold handle_lines in *. cbn [foldl].
  destruct (process_line_out now acc.1 line) as (out & E & Hlen & Hone).
  destruct (process_line json_loads now acc.1 line) as [h' o]. cbn [snd] in E.
  subst o. destruct (IH (h', acc.2 ++ out)) as (new & E' & Hlen' & Hone').
  exists (out ++ new). rewrite E'. cbn [snd]. rewrite <- app_assoc.
  split; [done|]. split; [|by apply Forall_app].
  rewrite length_app, Hlen, Hlen', filter_cons.
  case_decide as Hk; unfold Py.kept in Hk.
  - by rewrite Hk.
  - by destruct (Py.truthy (Py.strip line)).
Qed.

(** X7. One read of text is answered with exactly one payload for every
    complete non-blank line it completes, appended after what was sent
    before, and every payload is a single terminated line: requests and
    responses stay paired one to one, whether the lines decode or not. *)
Theorem X7_one_response_per_line st now data :
  data <> EmptyString ->
  exists new,
    sent (on_recv json_loads st (Received now data)).1 = sent st ++ new
    /\ length new = length (feed (buffer st) data).1
    /\ Forall one_line new.
Proof.
  intros Hd. rewrite Framing.on_recv_feed by done. cbn [fst sent].
  destruct (handle_lines_out now (active_holds st, sent st)
              (feed (buffer st) data).1) as (new & E & Hlen & Hone).
  exists new. split; [done|]. split; [|done].
  rewrite Hlen. f_equal. rewrite Framing.server_feed_lines_of. cbn [fst].
  apply list_filter_filter_l. done.
Qed.

(** *** Segmentation *)

Lemma feed_app buffer data1 data2 :
  feed buffer (data1 ++ data2)
  = ((feed buffer data1).1 ++ (feed (feed buffer data1).2 data2).1,
     (feed (feed buffer data1).2 data2).2).
Proof.
  rewrite !Framing.server_feed_lines_of. cbn [fst snd].
  rewrite <- Framing.append_assoc, Framing.lines_of_app. cbn [fst snd].
  by rewrite filter_app.
Qed.

Lemma handle_lines_app now acc l1 l2 :
  handle_lines json_loads now acc (l1 ++ l2)
  = handle_lines json_loads now (handle_lines json_loads now acc l1) l2.
Proof. unfold handle_lines. apply foldl_app. Qed.

(** X8. How the stream is cut into reads does not matter: receiving a
    text in two non-empty reads leaves the same buffer, the same tracker
    and the same payloads sent as receiving it in one read (at the same
    wall-clock reading). *)
Theorem X8_reads_can_be_split st now data1 data2 :
  data1 <> EmptyString ->
  data2 <> EmptyString ->
  on_recv json_loads (on_recv json_loads st (Received now data1)).1
    (Received now data2)
  = on_recv json_loads st (Received now (data1 ++ data2)).
Proof.
  intros H1 H2.
  assert ((data1 ++ data2)%string <> EmptyString) as H12
    by (by destruct data1).
  rewrite (Framing.on_recv_feed json_loads st now data1) by done. cbn [fst].
  rewrite !Framing.on_recv_feed by done. cbn [buffer active_holds sent].
  rewrite feed_app. cbn [fst snd]. rewrite handle_lines_app.
  by rewrite <- surjective_pairing.
Qed.

(** *** The end of a session *)

Lemma on_recv_stops st r :
  (connection_level r -> on_recv json_loads st r = (st, false))
  /\ (~ connection_level r -> (on_recv json_loads st r).2 = true).
Proof.
  unfold connection_level. destruct r as [now data| | |]; simpl.
  - destruct data as [|c data]; simpl.
    + split; [done|]. intros H. exfalso. apply H. eauto.
    + split; [|done]. intros [H|[H|[? H]]]; done.
  - split; [|done]. intros [H|[H|[? H]]]; done.
  - split; [done|]. intros H. exfalso. apply H. eauto.
  - split; [done|]. intros H. exfalso. apply H. eauto.
Qed.

(** X9. A session runs through time-outs and text, and ends at the first
    reset, connection error or empty read: the state is then the one the
    events before it produced, and nothing after it is read. *)
Theorem X9_session_ends_at_first_connection_event st before r after :
  Forall (fun e => ~ connection_level e) before ->
  connection_level r ->
  (serve json_loads st before).2 = true
  /\ serve json_loads st (before ++ r :: after)
     = ((serve json_loads st before).1, false).
Proof.
  intros Hb Hr. revert st.
  induction Hb as [|e before He Hb IH]; intros st; cbn [serve app].
  - split; [done|]. destruct (on_recv_stops st r) as [-> _]; done.
  - destruct (on_recv_stops st e) as [_ Hrun]. specialize (Hrun He).
    destruct (on_recv json_loads st e) as [st' running]. cbn [snd] in Hrun.
    subst running. apply IH.
Qed.

(** *** A malformed line in the middle of a read *)




End Pairing.


Example C9_example_raised_after_change :
  process_line
    (fun _ => RaisedInLane
                (Examples.snapshot "PLAYING" true 1300
                   [Examples.hold 0 1300 None 400]) 1)
    0 Examples.held_lane0 "{}"
  = ({[ 0 := new_hold 1300 (Examples.hold 0 1300 None 400) ]},
     [("none" ++ Py.nl)%string]).
Proof. by vm_compute. Qed.

Lemma X7_witness :
  exists new,
    sent (on_recv example_loads example_state
            (Received 0 ("  " ++ Py.nl ++ "{"))).1
    = sent example_state ++ new
    /\ length new
       = length (feed (buffer example_state) ("  " ++ Py.nl ++ "{")).1
    /\ Forall one_line new.
Proof.
  apply (X7_one_response_per_line example_loads example_state 0
           ("  " ++ Py.nl ++ "{")%string).
  discriminate.
Defined.

Lemma X8_witness :
  on_recv example_loads
    (on_recv example_loads example_state (Received 0 "{")).1
    (Received 0 ("}" ++ Py.nl ++ "x"))
  = on_recv example_loads example_state
      (Received 0 ("{" ++ ("}" ++ Py.nl ++ "x"))).
Proof.
  apply (X8_reads_can_be_split example_loads example_state 0 "{"
           ("}" ++ Py.nl ++ "x")%string); discriminate.
Defined.

Lemma X9_witness :
  (serve example_loads example_state [Timeout; Received 5 "{"]).2 = true
  /\ serve example_loads example_state
       ([Timeout; Received 5 "{"] ++ Received 6 "" :: [Received 7 ("}" ++ Py.nl)])
     = ((serve example_loads example_state [Timeout; Received 5 "{"]).1, false).
Proof.
  apply (X9_session_ends_at_first_connection_event example_loads example_state
           [Timeout; Received 5 "{"] (Received 6 "")
           [Received 7 ("}" ++ Py.nl)%string]).
  - repeat constructor; intros [H|[H|[? H]]]; discriminate H.
  - right. right. by exists 6.
Defined.

End ServerMore.

(** ** More of the client: the registry, the loop, the commands *)

Module ClientMore.
Import Client ClientSpec ClientLoop.

Local Ltac sublist_tac :=
  repeat first [apply sublist_nil | apply sublist_skip | apply sublist_cons].

(** *** The registry *)

Lemma registry_within_message reg message id :
  type message = Some "noteData" ->
  is_Some ((process_message reg message).1 !! id) ->
  id ∈ note_id <$> default [] (currentNotes message).
Proof.
  intros Hty. unfold process_message. rewrite bool_decide_eq_true_2 by done.
  set (ns := default [] (currentNotes message)).
  set (ct := default 0 (currentTime message)).
  destruct (fold_schedule ct ns (cleanup (map note_id ns) reg) [])
    as (new & _ & H1 & _ & H3 & _).
  rewrite H3. case_bool_decide as Hid.
  - intros _. apply list_elem_of_fmap in Hid as (t & -> & Ht).
    destruct (H1 t Ht) as (_ & n & Hn & -> & _).
    apply list_elem_of_fmap. by exists n.
  - rewrite lookup_cleanup. case_bool_decide as Hin; [|by intros [? ?]].
    intros _. exact Hin.
Qed.

(** X10. After a noteData message every id left in [scheduled_notes]
    belongs to a note of that message, so the registry never outgrows the
    current notes; a message whose note list is empty or missing empties
    it and starts nothing; a message of another type changes nothing. *)
Theorem X10_registry_follows_current_notes reg message :
  (type message = Some "noteData" ->
   (forall id, is_Some ((process_message reg message).1 !! id) ->
               exists n, n ∈ default [] (currentNotes message) /\ note_id n = id)
   /\ (default [] (currentNotes message) = [] ->
       process_message reg message = (∅, [])))
  /\ (type message <> Some "noteData" ->
      process_message reg message = (reg, [])).
Proof.
  split.
  - intros Hty. split.
    + intros id Hid. apply (registry_within_message _ _ _ Hty) in Hid.
      apply list_elem_of_fmap in Hid as (n & -> & Hn). by exists n.
    + intros Hempty.
      rewrite (surjective_pairing (process_message reg message)). f_equal.
      * apply map_eq. intros id. rewrite lookup_empty.
        destruct ((process_message reg message).1 !! id) eqn:E; [|done].
        assert (is_Some ((process_message reg message).1 !! id)) as Hs
          by (by eexists).
        apply (registry_within_message _ _ _ Hty) in Hs.
        rewrite Hempty in Hs. by apply elem_of_nil in Hs.
      * unfold process_message. rewrite bool_decide_eq_true_2 by done.
        by rewrite Hempty.
  - intros Hty. unfold process_message. by rewrite bool_decide_eq_false_2.
Qed.

(** X11. An id is forgotten as soon as a noteData message arrives
    without it: a later message that carries a due note with that id
    starts a task for the id again, whatever was registered before. *)
Theorem X11_rescheduled_after_absence reg between later n :
  type between = Some "noteData" ->
  note_id n ∉ note_id <$> default [] (currentNotes between) ->
  type later = Some "noteData" ->
  n ∈ default [] (currentNotes later) ->
  wanted n = true ->
  in_horizon (default 0 (currentTime later)) n = true ->
  exists t,
    t ∈ (process_message (process_message reg between).1 later).2
    /\ task_id t = note_id n.
Proof.
  intros Hb Habs Hl Hn Hw Hh.
  assert ((process_message reg between).1 !! note_id n = None) as Hnone.
  { destruct (_ !! note_id n) eqn:E; [|done]. exfalso. apply Habs.
    apply (registry_within_message reg between); [done|by eexists]. }
  destruct (process_message_tasks (process_message reg between).1 later)
    as (_ & _ & Hall).
  exact (Hall Hl n Hn Hw Hh Hnone).
Qed.

Lemma X11_witness :
  exists t,
    t ∈ (process_message
           (process_message {[ 11002 := true ]}
              (ClientExamples.noteData 1050 [])).1
           (ClientExamples.noteData 1060 [ClientExamples.note 2 1100 false])).2
    /\ task_id t = note_id (ClientExamples.note 2 1100 false).
Proof.
  apply (X11_rescheduled_after_absence {[ 11002 := true ]}
           (ClientExamples.noteData 1050 [])
           (ClientExamples.noteData 1060 [ClientExamples.note 2 1100 false])
           (ClientExamples.note 2 1100 false)); try reflexivity.
  - intros H. simpl in H. by apply elem_of_nil in H.
  - apply list_elem_of_here.
Defined.

(** *** The tasks *)

(** X12. Every task waits between 0 and 120 ms before its press, and its
    thread sleeps at most 180 ms in all; it sends exactly a press and then
    a release of the task's key code. *)
Theorem X12_task_delay_bounds reg message t :
  t ∈ (process_message reg message).2 ->
  0 <= task_delay t <= 120
  /\ total_sleep (hit_note (task_direction t) (task_delay t)) <= 180
  /\ sends (hit_note (task_direction t) (task_delay t))
     = [ {| keyCode := task_direction t; pressed := true |};
         {| keyCode := task_direction t; pressed := false |} ].
Proof.
  intros Ht.
  destruct (process_message_tasks reg message) as (_ & Hin & _).
  destruct (Hin t Ht) as (_ & _ & _ & n & _ & -> & _ & Hh).
  apply in_horizon_bounds in Hh. simpl. split; [lia|]. split; [lia|done].
Qed.

Lemma X12_witness :
  0 <= 70 <= 120
  /\ total_sleep (hit_note 2 70) <= 180
  /\ sends (hit_note 2 70)
     = [ {| keyCode := 2; pressed := true |};
         {| keyCode := 2; pressed := false |} ].
Proof.
  apply (X12_task_delay_bounds ∅
           (ClientExamples.noteData 1000 [ClientExamples.note 2 1100 false])
           {| task_id := 11002; task_direction := 2; task_delay := 70 |}).
  vm_compute. apply list_elem_of_here.
Defined.

Lemma fold_schedule_order ct notes :
  forall reg tasks, exists l,
    l `sublist_of` notes
    /\ (foldl (schedule_step ct) (reg, tasks) notes).2
       = tasks ++ (task_of ct <$> l).
Proof.
  induction notes as [|n ns IH]; intros reg tasks; cbn [foldl].
  { exists []. split; [sublist_tac|]. by rewrite app_nil_r. }
  rewrite schedule_step_eq. destruct (schedulable ct reg n).
  - destruct (IH (<[note_id n := true]> reg) (tasks ++ [task_of ct n]))
      as (l & Hs & E).
    exists (n :: l). split; [by apply sublist_skip|].
    by rewrite E, <- app_assoc.
  - destruct (IH reg tasks) as (l & Hs & E).
    exists l. split; [by apply sublist_cons|done].
Qed.

(** X13. The tasks of a message are started in the order of its notes:
    they are the tasks of a selection of the notes, order kept. *)
Theorem X13_tasks_follow_note_order reg message :
  exists l,
    l `sublist_of` default [] (currentNotes message)
    /\ (process_message reg message).2
       = task_of (default 0 (currentTime message)) <$> l.
Proof.
  unfold process_message. case_bool_decide.
  - destruct (fold_schedule_order (default 0 (currentTime message))
                (default [] (currentNotes message))
                (cleanup (map note_id (default [] (currentNotes message))) reg)
                []) as (l & Hs & E).
    exists l. by rewrite E.
  - exists []. split; [apply sublist_nil_l|done].
Qed.

(** *** The receive loop of the client *)

Section ClientSession.
Variable json_loads : string -> ClientLoop.loaded.

Lemma process_line_skipped acc line :
  skipped json_loads line = true ->
  ClientLoop.process_line json_loads acc line = Some acc.
Proof.
  unfold skipped, ClientLoop.process_line.
  destruct (Py.truthy (Py.strip line)); [|done]. simpl.
  by destruct (json_loads line).
Qed.

(** X14. Blank lines and lines that are not JSON have no effect on the
    client: the registry, the tasks started and whether the loop goes on
    are those of the same lines with the skipped ones taken out. *)
Theorem X14_invalid_lines_are_skipped acc lines :
  process_lines json_loads acc lines
  = process_lines json_loads acc
      (filter (fun line => skipped json_loads line = false) lines).
Proof.
  revert acc. induction lines as [|line lines IH]; intros acc; [done|].
  rewrite filter_cons. destruct (skipped json_loads line) eqn:Hs.
  - rewrite decide_False by done. cbn [process_lines].
    by rewrite process_line_skipped.
  - rewrite decide_True by done. cbn [process_lines].
    destruct (ClientLoop.process_line json_loads acc line); [apply IH|done].
Qed.

Lemma process_lines_app acc l1 l2 :
  (process_lines json_loads acc l1).2 = true ->
  process_lines json_loads acc (l1 ++ l2)
  = process_lines json_loads (process_lines json_loads acc l1).1 l2.
Proof.
  revert acc. induction l1 as [|line l1 IH]; intros acc; [done|].
  cbn [process_lines app].
  destruct (ClientLoop.process_line json_loads acc line); [apply IH|done].
Qed.

(** X15. A non-blank line that is JSON but not an object ends the client
    session: the lines before it in the same read have had their effect,
    the lines after it are never processed, and [run] stops there. *)
Theorem X15_non_object_line_ends_client st text before bad after rest later :
  Py.pop_last (Py.split (ClientLoop.buffer st ++ text))
  = (before ++ bad :: after, rest) ->
  (process_lines json_loads (scheduled_notes st, started st) before).2 = true ->
  Py.kept bad ->
  json_loads bad = ClientLoop.NotAnObject ->
  run json_loads st (ClientLoop.Received text :: later)
  = ({| ClientLoop.buffer := rest;
        scheduled_notes :=
          (process_lines json_loads (scheduled_notes st, started st) before).1.1;
        started :=
          (process_lines json_loads (scheduled_notes st, started st) before).1.2 |},
     false).
Proof.
  intros Hsplit Hbefore Hkept Hbad. cbn [run ClientLoop.on_recv].
  rewrite Hsplit, process_lines_app by done. cbn [process_lines].
  unfold ClientLoop.process_line. rewrite Hkept, Hbad. done.
Qed.

End ClientSession.

Lemma X15_witness :
  run client_example_loads client_example_state
    [ClientLoop.Received
       ("x" ++ Py.nl ++ "{}" ++ Py.nl ++ "[]" ++ Py.nl ++ "{}" ++ Py.nl ++ "{");
     ClientLoop.Received ("}" ++ Py.nl)]
  = ({| ClientLoop.buffer := "{";
        scheduled_notes :=
          (process_lines client_example_loads
             (scheduled_notes client_example_state,
              started client_example_state) ["x"; "{}"]).1.1;
        started :=
          (process_lines client_example_loads
             (scheduled_notes client_example_state,
              started client_example_state) ["x"; "{}"]).1.2 |},
     false).
Proof.
  apply (X15_non_object_line_ends_client client_example_loads
           client_example_state
           ("x" ++ Py.nl ++ "{}" ++ Py.nl ++ "[]" ++ Py.nl ++ "{}" ++ Py.nl ++ "{")
           ["x"; "{}"] "[]" ["{}"] "{"
           [ClientLoop.Received ("}" ++ Py.nl)%string]); reflexivity.
Defined.

(** *** Replays and segmentation on the client *)

Lemma fold_schedule_none ct notes reg tasks :
  (forall n, n ∈ notes -> schedulable ct reg n = false) ->
  foldl (schedule_step ct) (reg, tasks) notes = (reg, tasks).
Proof.
  induction notes as [|n ns IH]; intros Hall; [done|]. cbn [foldl].
  rewrite schedule_step_eq, (Hall n) by apply list_elem_of_here.
  apply IH. intros m Hm. by apply Hall, list_elem_of_further.
Qed.

(** X19. A message processed a second time, right after the first, starts
    no task and leaves the registry as it is: while a note stays in the
    messages its press is scheduled once. *)
Theorem X19_message_replay_starts_nothing reg message :
  process_message (process_message reg message).1 message
  = ((process_message reg message).1, []).
Proof.
  destruct (decide (type message = Some "noteData")) as [Hty|Hty].
  2:{ unfold process_message. by rewrite !bool_decide_eq_false_2. }
  set (reg1 := (process_message reg message).1).
  assert (cleanup (map note_id (default [] (currentNotes message))) reg1 = reg1)
    as Hclean.
  { apply map_eq. intros id. rewrite lookup_cleanup.
    case_bool_decide as Hin; [done|].
    destruct (reg1 !! id) eqn:E; [|done]. exfalso. apply Hin.
    apply (registry_within_message reg message); [done|by eexists]. }
  unfold process_message at 1. rewrite bool_decide_eq_true_2 by done.
  rewrite Hclean. apply fold_schedule_none. intros n Hn.
  unfold schedulable.
  destruct (wanted n) eqn:Hw; [|done].
  destruct (in_horizon (default 0 (currentTime message)) n) eqn:Hh;
    [|by rewrite andb_false_r].
  assert (is_Some (reg1 !! note_id n)) as Hs.
  { unfold reg1, process_message. rewrite bool_decide_eq_true_2 by done.
    destruct (fold_schedule (default 0 (currentTime message))
                (default [] (currentNotes message))
                (cleanup (map note_id (default [] (currentNotes message))) reg)
                []) as (_ & _ & _ & _ & _ & H4).
    by apply H4. }
  by rewrite (bool_decide_eq_true_2 _ Hs).
Qed.

Section ClientSegments.
Variable json_loads : string -> ClientLoop.loaded.

(** X20. How the stream is cut into reads does not matter to the client
    either: when the first of two reads does not end the session, the two
    reads leave the buffer, the registry and the tasks started that one
    read of the whole text leaves, and stop or go on alike. *)
Theorem X20_client_reads_can_be_split st text1 text2 :
  (ClientLoop.on_recv json_loads st (ClientLoop.Received text1)).2 = true ->
  ClientLoop.on_recv json_loads
    (ClientLoop.on_recv json_loads st (ClientLoop.Received text1)).1
    (ClientLoop.Received text2)
  = ClientLoop.on_recv json_loads st (ClientLoop.Received (text1 ++ text2)).
Proof.
  cbn [ClientLoop.on_recv]. rewrite !Framing.pop_last_split.
  rewrite <- Framing.append_assoc, (Framing.lines_of_app (_ ++ text1) text2).
  destruct (Py.lines_of (ClientLoop.buffer st ++ text1)) as [l1 b1].
  cbn [fst snd].
  destruct (process_lines json_loads (scheduled_notes st, started st) l1)
    as [acc1 running1] eqn:E1.
  cbn [fst snd ClientLoop.buffer scheduled_notes started]. intros ->.
  destruct (Py.lines_of (b1 ++ text2)) as [l2 b2]. cbn [fst snd].
  rewrite process_lines_app by (by rewrite E1). rewrite E1. cbn [fst].
  by rewrite <- surjective_pairing.
Qed.

End ClientSegments.

Lemma X20_witness :
  ClientLoop.on_recv client_example_loads
    (ClientLoop.on_recv client_example_loads client_example_state
       (ClientLoop.Received "{")).1
    (ClientLoop.Received ("}" ++ Py.nl ++ "[]" ++ Py.nl))
  = ClientLoop.on_recv client_example_loads client_example_state
      (ClientLoop.Received ("{" ++ ("}" ++ Py.nl ++ "[]" ++ Py.nl))).
Proof.
  apply (X20_client_reads_can_be_split client_example_loads
           client_example_state "{" ("}" ++ Py.nl ++ "[]" ++ Py.nl)%string).
  reflexivity.
Defined.

(** *** The commands on the wire *)

Lemma has_newline_app a b :
  Py.has_newline (a ++ b) = Py.has_newline a || Py.has_newline b.
Proof.
  induction a as [|c a IH]; [done|]. rewrite Framing.append_cons.
  cbn [Py.has_newline]. by destruct (Ascii.eqb c Py.newline).
Qed.

Lemma has_newline_uint d : Py.has_newline (NilEmpty.string_of_uint d) = false.
Proof. induction d as [|d IH|d IH|d IH|d IH|d IH|d IH|d IH|d IH|d IH|d IH]; [done|exact IH..]. Qed.

Lemma has_newline_str_int z : Py.has_newline (str_int z) = false.
Proof.
  unfold str_int. destruct (Z.to_int z) as [d|d]; simpl.
  - destruct d; try done; apply (has_newline_uint (_ d)).
  - destruct d; try done; apply (has_newline_uint (_ d)).
Qed.

Lemma has_newline_json_dumps c : Py.has_newline (json_dumps c) = false.
Proof.
  unfold json_dumps. rewrite !has_newline_app, has_newline_str_int.
  by destruct (pressed c).
Qed.

Lemma kept_json_dumps c : Py.kept (json_dumps c).
Proof.
  unfold Py.kept, Py.strip, json_dumps.
  rewrite Framing.append_cons, Framing.append_nil. cbn [Py.lstrip].
  change (Py.isspace "{") with false. cbn [Py.rstrip].
  change (Py.isspace "{") with false. by destruct (Py.rstrip _).
Qed.

Lemma lines_of_line s rest :
  Py.has_newline s = false ->
  Py.lines_of (s ++ Py.nl ++ rest)
  = (s :: (Py.lines_of rest).1, (Py.lines_of rest).2).
Proof.
  induction s as [|c s IH]; intros Hs.
  - rewrite Framing.append_nil. unfold Py.nl. rewrite Framing.append_cons.
    cbn [Py.lines_of]. rewrite Framing.append_nil.
    rewrite Ascii.eqb_refl. by destruct (Py.lines_of rest).
  - cbn [Py.has_newline] in Hs. rewrite Framing.append_cons.
    cbn [Py.lines_of]. destruct (Ascii.eqb c Py.newline); [done|].
    by rewrite IH.
Qed.

(** X16. Whatever a thread writes with [send_command] is one terminated
    line per command, in the order sent, each line the JSON object with
    the keys type, keyCode and pressed and nothing after the last
    terminator; a task's thread writes two lines, press then release. *)
Theorem X16_commands_are_framed_one_per_line effects direction delay_ms :
  Py.lines_of (written effects) = (json_dumps <$> sends effects, "")
  /\ Forall (fun line => Py.kept line /\ Py.has_newline line = false)
       (json_dumps <$> sends effects)
  /\ Py.lines_of (written (hit_note direction delay_ms))
     = ([json_dumps {| keyCode := direction; pressed := true |};
         json_dumps {| keyCode := direction; pressed := false |}], "").
Proof.
  assert (forall es, Py.lines_of (written es) = (json_dumps <$> sends es, ""))
    as Hall.
  { induction es as [|[ms|c] es IH]; [done|exact IH|].
    cbn [written sends]. unfold send_command.
    rewrite Framing.append_assoc, lines_of_line by apply has_newline_json_dumps.
    by rewrite IH. }
  split; [apply Hall|]. split; [|apply Hall].
  apply Forall_fmap, Forall_forall. intros c _. simpl.
  split; [apply kept_json_dumps|apply has_newline_json_dumps].
Qed.

Example X16_example_press :
  send_command {| keyCode := 2; pressed := true |}
  = ("{" ++ dq ++ "type" ++ dq ++ ": " ++ dq ++ "input" ++ dq ++ ", "
     ++ dq ++ "keyCode" ++ dq ++ ": 2, " ++ dq ++ "pressed" ++ dq
     ++ ": true}" ++ Py.nl)%string.
Proof. by vm_compute. Qed.

End ClientMore.

(** ** The vision: lane geometry and frame numbers *)

Module VisionSpec.
Import Vision Frames.

(** X17. In an image at least one pixel wide every note, whatever its
    direction, is drawn at an x inside the image; in an image at least
    four pixels wide the x of a lane 0..3 lies inside that lane's own
    column, between its separator lines, and is the x of the lane's
    hit-zone marker. *)
Theorem X17_lane_x_inside_image_and_lane width direction :
  (1 <= width -> 0 <= direction_to_lane_x width direction < width)
  /\ (4 <= width -> 0 <= direction <= 3 ->
      direction * lane_width width <= direction_to_lane_x width direction
      /\ direction_to_lane_x width direction < (direction + 1) * lane_width width
      /\ (direction + 1) * lane_width width <= width)
  /\ hit_zone_markers width = direction_to_lane_x width <$> [0; 1; 2; 3]
  /\ lane_separators width
     = [1 * lane_width width; 2 * lane_width width; 3 * lane_width width].
Proof.
  unfold direction_to_lane_x, lane_width, num_lanes.
  split; [|split; [|split; [done|done]]].
  - intros Hw.
    destruct (Z.leb_spec 0 direction), (Z.leb_spec direction 3); simpl;
      try (Z.to_euclidean_division_equations; lia).
    assert (0 <= width / 4) by (Z.to_euclidean_division_equations; lia).
    assert (4 * (width / 4) <= width) by (Z.to_euclidean_division_equations; lia).
    assert (0 <= width / 4 / 2 /\ 2 * (width / 4 / 2) <= width / 4) as [? ?]
      by (Z.to_euclidean_division_equations; lia).
    assert (width / 4 = 0 \/ 1 <= width / 4) as [E|?] by lia.
    + rewrite E in *. simpl. lia.
    + nia.
  - intros Hw Hd.
    rewrite (proj2 (Z.leb_le 0 direction)), (proj2 (Z.leb_le direction 3)) by lia.
    simpl.
    assert (1 <= width / 4) by (Z.to_euclidean_division_equations; lia).
    assert (4 * (width / 4) <= width) by (Z.to_euclidean_division_equations; lia).
    assert (0 <= width / 4 / 2 /\ width / 4 / 2 < width / 4) as [? ?]
      by (Z.to_euclidean_division_equations; lia).
    nia.
Qed.

Lemma X17_witness :
  0 <= direction_to_lane_x 400 2 < 400
  /\ 2 * lane_width 400 <= direction_to_lane_x 400 2
  /\ direction_to_lane_x 400 2 < (2 + 1) * lane_width 400
  /\ (2 + 1) * lane_width 400 <= 400.
Proof.
  destruct (X17_lane_x_inside_image_and_lane 400 2) as (H1 & H2 & _).
  split; [apply H1; lia | apply H2; lia].
Defined.

Lemma update_fold flags :
  forall c saved,
  foldl (fun acc g =>
           let '(c', s) := update_vision true g acc.1 in (c', acc.2 ++ s))
        (c, saved) flags
  = (c + Z.of_nat (length (filter (fun g => g = true) flags)),
     saved ++ filter (fun k => k mod VISION_SAVE_INTERVAL = 0)
                (seqZ c (Z.of_nat (length (filter (fun g => g = true) flags))))).
Proof.
  induction flags as [|g flags IH]; intros c saved; cbn [foldl].
  { simpl. rewrite seqZ_nil by done. rewrite filter_nil, app_nil_r.
    f_equal. lia. }
  rewrite filter_cons. destruct g; cbn [fst snd update_vision negb].
  - rewrite decide_True by done. cbn [length]. rewrite IH.
    rewrite (seqZ_cons c) by lia. rewrite filter_cons.
    replace (Z.succ c) with (c + 1) by lia.
    replace (Z.pred (Z.of_nat (S (length (filter (fun g => g = true) flags)))))
      with (Z.of_nat (length (filter (fun g => g = true) flags))) by lia.
    f_equal; [lia|]. rewrite <- app_assoc. f_equal.
    unfold SAVE_VISION_FRAMES. cbn [andb].
    destruct (Z.eqb_spec (c mod VISION_SAVE_INTERVAL) 0) as [E|E].
    + by rewrite decide_True.
    + by rewrite decide_False.
  - rewrite decide_False by done. rewrite app_nil_r. apply IH.
Qed.

(** X18. With the vision enabled, a run of calls of [update_vision] moves
    the frame counter by the number of frames that could be generated and
    saves exactly the frames whose number is a multiple of 30 among the
    numbers used; a frame that fails to generate uses no number.  With
    the vision disabled the counter stays and nothing is saved. *)
Theorem X18_frames_saved_every_30 (generated : list bool) frame_counter :
  update_all true generated frame_counter
  = (frame_counter + Z.of_nat (length (filter (fun g => g = true) generated)),
     filter (fun k => k mod 30 = 0)
       (seqZ frame_counter
          (Z.of_nat (length (filter (fun g => g = true) generated)))))
  /\ update_all false generated frame_counter = (frame_counter, []).
Proof.
  split.
  - unfold update_all. by rewrite update_fold.
  - unfold update_all. induction generated as [|g gs IH]; [done|].
    cbn [foldl update_vision negb fst snd app]. exact IH.
Qed.

Example X18_example :
  update_all true [true; false; true; true] 29 = (32, [30]).
Proof. by vm_compute. Qed.

End VisionSpec.
